(** * prepare-commit-msg: a shallow embedding of the commit-message hook

    The hook ([scripts/prepare-commit-msg.py]) reads the staged diff, asks a
    remote model for a Conventional-Commits message and writes it into the
    commit-message file.  This development embeds the hook's functions and
    proves the properties its specification states about them.

    Conventions of the embedding:
    - a Python [str] is a list of characters; characters are the Latin-1
      code points (0..255), which is where [ascii] and Python agree, and the
      character classes below ([isspace], line boundaries, [lower]) are
      Python's classes restricted to that range;
    - everything the hook gets from outside (the environment variable, the
      [git] subprocess, the remote model, the file system) is a field of a
      [World] record;
    - everything the hook does to the outside (spawning the subprocess,
      calling the model, sleeping, printing, writing the file) is an [event]
      appended to a trace, in program order;
    - exceptions are values of [exn], carried by the [Raise] result. *)

From Stdlib Require Import Ascii String List ZArith Lia Bool Arith.
From Stdlib Require Import DecimalString.
Import ListNotations.

Set Warnings "-register-all".

(** ** Python strings *)

Definition pystr := list ascii.

(** String literals of the source. *)
Definition lit (s : string) : pystr := list_ascii_of_string s.

Definition dquote : ascii := ascii_of_nat 34.
Definition squote : ascii := ascii_of_nat 39.
Definition backtick : ascii := ascii_of_nat 96.
Definition space : ascii := ascii_of_nat 32.
Definition newline : ascii := ascii_of_nat 10.
Definition cr : ascii := ascii_of_nat 13.

Module PyStr.

(** [str.isspace] on one character: TAB..CR, FS..US, SPACE, NEL, NBSP. *)
Definition isspace (c : ascii) : bool :=
  let n := nat_of_ascii c in
  ((9 <=? n) && (n <=? 13)) || ((28 <=? n) && (n <=? 32))
  || (n =? 133) || (n =? 160).

(** The line boundaries of [str.splitlines]: LF, VT, FF, CR, FS, GS, RS,
    NEL (CR LF is handled by [splitlines] itself). *)
Definition is_linebreak (c : ascii) : bool :=
  let n := nat_of_ascii c in
  ((10 <=? n) && (n <=? 13)) || ((28 <=? n) && (n <=? 30)) || (n =? 133).

(** [str.lower] on one character: A..Z and the Latin-1 capitals
    (U+00C0..U+00DE without the multiplication sign U+00D7). *)
Definition lower_char (c : ascii) : ascii :=
  let n := nat_of_ascii c in
  if ((65 <=? n) && (n <=? 90))
     || ((192 <=? n) && (n <=? 222) && negb (n =? 215))
  then ascii_of_nat (n + 32) else c.

Definition lower (s : pystr) : pystr := map lower_char s.

(** [s.lstrip()], [s.rstrip()], [s.strip()] *)
Fixpoint lstrip (s : pystr) : pystr :=
  match s with
  | [] => []
  | c :: s' => if isspace c then lstrip s' else s
  end.

Definition rstrip (s : pystr) : pystr := rev (lstrip (rev s)).

Definition strip (s : pystr) : pystr := rstrip (lstrip s).

(** [s.startswith(p)], [s.endswith(p)] *)
Fixpoint startswith (p s : pystr) : bool :=
  match p, s with
  | [], _ => true
  | _ :: _, [] => false
  | a :: p', b :: s' => Ascii.eqb a b && startswith p' s'
  end.

Definition endswith (p s : pystr) : bool := startswith (rev p) (rev s).

(** The slice [s[a:-b]] for [b > 0]: the characters at the indices [i]
    with [a <= i < len(s) - b]; empty when there are none. *)
Definition slice (a b : nat) (s : pystr) : pystr :=
  firstn (length s - b - a) (skipn a s).

(** [s[:n]] *)
Definition take (n : nat) (s : pystr) : pystr := firstn n s.

(** [c in s] for a one-character string [c] *)
Definition contains_char (c : ascii) (s : pystr) : bool :=
  existsb (Ascii.eqb c) s.

(** [p in s]: [p] occurs in [s] as a substring *)
Fixpoint contains (p s : pystr) : bool :=
  startswith p s
  || match s with
     | [] => false
     | _ :: s' => contains p s'
     end.

(** [s.split(sep)] for a one-character separator: never empty. *)
Fixpoint split (sep : ascii) (s : pystr) : list pystr :=
  match s with
  | [] => [[]]
  | c :: s' =>
      if Ascii.eqb c sep then [] :: split sep s'
      else match split sep s' with
           | [] => [[c]]
           | w :: ws => (c :: w) :: ws
           end
  end.

(** [sep.join(parts)] *)
Fixpoint join (sep : pystr) (parts : list pystr) : pystr :=
  match parts with
  | [] => []
  | [p] => p
  | p :: ps => p ++ sep ++ join sep ps
  end.

(** [s.splitlines()]: [cur] holds the current line, reversed.  A line is
    closed at each line boundary; CR LF is one boundary; a last line
    without boundary is kept only if it is not empty. *)
Fixpoint splitlines_from (cur : pystr) (s : pystr) : list pystr :=
  match s with
  | [] => match cur with [] => [] | _ => [rev cur] end
  | c :: s' =>
      if is_linebreak c then
        rev cur ::
          match s' with
          | d :: s'' =>
              if Ascii.eqb c cr && Ascii.eqb d newline
              then splitlines_from [] s''
              else splitlines_from [] s'
          | [] => splitlines_from [] s'
          end
      else splitlines_from (c :: cur) s'
  end.

Definition splitlines (s : pystr) : list pystr := splitlines_from [] s.

(** [s == t] *)
Fixpoint eqb (s t : pystr) : bool :=
  match s, t with
  | [], [] => true
  | a :: s', b :: t' => Ascii.eqb a b && eqb s' t'
  | _, _ => false
  end.

(** [not s] *)
Definition is_empty (s : pystr) : bool :=
  match s with [] => true | _ => false end.

(** [str(n)] for an integer *)
Definition of_Z (n : Z) : pystr :=
  lit (NilZero.string_of_int (Z.to_int n)).

End PyStr.

(** ** The response sanitizer: [sanitize_generated_text] *)

Definition fence : pystr := [backtick; backtick; backtick].

Definition sanitize_generated_text (text : pystr) : pystr :=
  match text with
  | [] => []
  | _ =>
      let t := PyStr.strip text in
      let t :=
        if PyStr.startswith fence t && PyStr.endswith fence t
        then PyStr.strip (PyStr.slice 3 3 t) else t in
      let t :=
        if PyStr.startswith [backtick] t && PyStr.endswith [backtick] t
        then PyStr.strip (PyStr.slice 1 1 t) else t in
      let t :=
        if (PyStr.startswith [dquote] t && PyStr.endswith [dquote] t)
           || (PyStr.startswith [squote] t && PyStr.endswith [squote] t)
        then PyStr.strip (PyStr.slice 1 1 t) else t in
      t
  end.

(** ** Python values

    The remote response is an object of no fixed shape.  The hook navigates
    it with [hasattr], [isinstance], indexing and key lookup, so the
    embedding has the values those operations tell apart: [None], strings,
    integers, lists, dictionaries with string keys, and objects carrying
    named attributes. *)

Inductive pyval :=
| VNone
| VStr (s : pystr)
| VInt (n : Z)
| VList (items : list pyval)
| VDict (entries : list (pystr * pyval))
| VObj (attrs : list (pystr * pyval)).

Fixpoint lookup (k : pystr) (kvs : list (pystr * pyval)) : option pyval :=
  match kvs with
  | [] => None
  | (k', v) :: kvs' => if PyStr.eqb k k' then Some v else lookup k kvs'
  end.

(** [getattr(o, name)]; [None] when [hasattr(o, name)] is false. *)
Definition getattr (o : pyval) (name : pystr) : option pyval :=
  match o with
  | VObj attrs => lookup name attrs
  | _ => None
  end.

(** Truth value of [v] in a condition. *)
Definition truthy (v : pyval) : bool :=
  match v with
  | VNone => false
  | VStr s => negb (PyStr.is_empty s)
  | VInt n => negb (n =? 0)%Z
  | VList l => match l with [] => false | _ => true end
  | VDict d => match d with [] => false | _ => true end
  | VObj _ => true
  end.

(** [v[0]]; [None] when the subscript raises (wrong type, empty sequence,
    missing key). *)
Definition index0 (v : pyval) : option pyval :=
  match v with
  | VList (x :: _) => Some x
  | VStr (c :: _) => Some (VStr [c])
  | _ => None
  end.

(** ** Exceptions, results, events *)

Inductive exn :=
| ValueError (msg : pystr)
| RuntimeError (msg : pystr)
| OtherException (cls msg : pystr).

(** [str(e)] *)
Definition str_exn (e : exn) : pystr :=
  match e with
  | ValueError m | RuntimeError m | OtherException _ m => m
  end.

Inductive result (A : Type) :=
| Ret (a : A)
| Raise (e : exn).
Arguments Ret {A} a.
Arguments Raise {A} e.

Inductive event :=
| EvSubprocess (argv : list pystr)
| EvNetwork (model prompt api_key : pystr)
| EvSleep (seconds : Z)
| EvStderr (line : pystr)
| EvStdout (line : pystr)
| EvWrite (path content : pystr).

Definition trace := list event.

(** Outcome of [subprocess.run(..., check=False)]: it raises (the tool is
    missing, the process cannot be spawned) or completes with an exit status
    and the captured standard output. *)
Inductive proc_outcome :=
| ProcRaised (e : exn)
| ProcCompleted (returncode : Z) (stdout : pystr).

(** ** The outside world *)

Record World := {
  (** [os.environ.get("GEMINI_API_KEY")], after the optional dotenv load *)
  env_GEMINI_API_KEY : option pystr;
  (** what running [git diff --staged] does *)
  git_diff_staged : proc_outcome;
  (** whether [from google import genai] succeeds *)
  genai_installed : bool;
  (** [client.models.generate_content(model, contents)] inside
      [genai.Client(api_key)], at the given attempt of the retry loop *)
  generate_content : pystr -> pystr -> pystr -> Z -> result pyval;
  (** [str(v)] for a value that is not a string; [None] when it raises *)
  str_of_object : pyval -> option pystr;
  (** [open(path, "w")]: the exception it raises, if any *)
  open_for_write : pystr -> option exn
}.

(** ** The effect monad: a trace of events and a result *)

Definition M (A : Type) : Type := (trace * result A)%type.

Definition ret {A} (a : A) : M A := ([], Ret a).
Definition raise {A} (e : exn) : M A := ([], Raise e).
Definition emit (ev : event) : M unit := ([ev], Ret tt).

Definition bind {A B} (m : M A) (f : A -> M B) : M B :=
  match m with
  | (t, Ret a) => let (t', r) := f a in (t ++ t', r)
  | (t, Raise e) => (t, Raise e)
  end.

(** [try: m  except Exception as e: h e] *)
Definition catch {A} (m : M A) (h : exn -> M A) : M A :=
  match m with
  | (t, Ret a) => (t, Ret a)
  | (t, Raise e) => let (t', r) := h e in (t ++ t', r)
  end.

Notation "x <- m ;; k" := (bind m (fun x => k))
  (at level 61, m at next level, right associativity).
Notation "m ;;; k" := (bind m (fun _ => k))
  (at level 61, right associativity).

(** ** The hook *)

Definition MAX_SUBJECT_LENGTH : nat := 50.
Definition MODEL_NAME : pystr := lit "gemini-2.5-flash".

(** [read_api_key]: an unset and an empty variable both raise. *)
Definition read_api_key (w : World) : M pystr :=
  match env_GEMINI_API_KEY w with
  | Some (c :: k) => ret (c :: k)
  | _ => raise (ValueError (lit "GEMINI_API_KEY environment variable is not set."))
  end.

(** [is_user_message_source] *)
Definition is_user_message_source (commit_source : option pystr) : bool :=
  match commit_source with
  | None | Some [] => false
  | Some src =>
      let lower := PyStr.lower src in
      PyStr.eqb lower (lit "message") || PyStr.eqb lower (lit "commit")
  end.

Definition git_diff_argv : list pystr := [lit "git"; lit "diff"; lit "--staged"].

(** [get_staged_diff]: the exit status of a completed run is not looked at
    ([check=False]); only a raised exception is caught and reported. *)
Definition get_staged_diff (w : World) : M pystr :=
  emit (EvSubprocess git_diff_argv) ;;;
  match git_diff_staged w with
  | ProcRaised e =>
      emit (EvStderr (lit "WARN: running git diff failed: " ++ str_exn e)) ;;;
      ret []
  | ProcCompleted _ stdout => ret stdout
  end.

(** [build_prompt]: the stripped template ends with the [{diff}] field, so
    the prompt is the instructions followed by the diff. *)
Definition prompt_instructions : pystr := lit
"You are an expert software developer and git maintainer. Based on the staged git diff below, compose a concise, high-quality commit message using the Conventional Commits format.

Requirements (must follow exactly):
- Output only the raw commit message with no commentary, explanation, or markdown formatting.
- Use Conventional Commits types (e.g., feat, fix, docs, chore, refactor, perf, test).
- Enforce a 50-character limit for the SUBJECT line (the first line). If necessary, shorten the subject to fit 50 characters while remaining clear.
- The commit message should have a subject line (type: short summary) and, optionally, a blank line followed by a more detailed body if the changes require it.
- Do NOT include surrounding backticks or triple-backticks in your output.

Format example to emulate exactly (subject <= 50 chars):
feat(parser): add support for X

Add a short descriptive body if necessary. Keep the body lines reasonably wrapped.

Staged git diff (do not invent changes, base message only on the diff below):

".

Definition build_prompt (diff_text : pystr) : pystr :=
  prompt_instructions ++ diff_text.

(** [str(v)] *)
Definition py_str (w : World) (v : pyval) : option pystr :=
  match v with
  | VStr s => Some s
  | _ => str_of_object w v
  end.

(** [extract_text_from_response].  The body of the [try] is a sequence of
    guarded [return]s: each guard returns a value, falls through to the next
    one, or raises. *)
Inductive flow :=
| Returns (v : pyval)
| Continues
| Throws.

Definition orelse (f g : flow) : flow :=
  match f with
  | Continues => g
  | _ => f
  end.

(** The element of a list-of-parts: a dict with a ["text"] key or a str. *)
Definition text_of_first (first : pyval) : flow :=
  match first with
  | VDict d =>
      match lookup (lit "text") d with
      | Some v => Returns v
      | None => Continues
      end
  | VStr _ => Returns first
  | _ => Continues
  end.

Definition from_candidate (c0 : pyval) : flow :=
  orelse
    match getattr c0 (lit "content") with
    | Some (VList (first :: _)) => text_of_first first
    | Some (VStr s) => Returns (VStr s)
    | _ => Continues
    end
  (orelse
    match getattr c0 (lit "output") with
    | Some (VList (el :: _)) => text_of_first el
    | _ => Continues
    end
    match getattr c0 (lit "text") with
    | Some v => Returns v
    | None => Continues
    end).

(** [resp.output] and [resp.result]: a str, or a dict with ["content"]. *)
Definition from_container (out : option pyval) : flow :=
  match out with
  | Some (VStr s) => Returns (VStr s)
  | Some (VDict d) =>
      match lookup (lit "content") d with
      | Some v => Returns v
      | None => Continues
      end
  | _ => Continues
  end.

Definition extract_try (resp : pyval) : flow :=
  orelse
    match getattr resp (lit "candidates") with
    | Some cands =>
        if truthy cands then
          match index0 cands with
          | Some c0 => from_candidate c0
          | None => Throws
          end
        else Continues
    | None => Continues
    end
  (orelse
    match getattr resp (lit "text") with
    | Some (VStr s) => Returns (VStr s)
    | _ => Continues
    end
  (orelse (from_container (getattr resp (lit "output")))
          (from_container (getattr resp (lit "result"))))).

Definition extract_text_from_response (w : World) (resp : pyval) : pyval :=
  match extract_try resp with
  | Returns v => v
  | Continues | Throws =>
      match py_str w resp with
      | Some s => VStr s
      | None => VStr []
      end
  end.

(** [sanitize_generated_text] at an argument of any type: a falsy value
    gives the empty string, a str is sanitized, and any other value has no
    [strip] method.  The message of the [AttributeError] is shortened:
    Python's begins with the name of the value's type. *)
Definition sanitize_generated_value (raw : pyval) : M pystr :=
  match raw with
  | VStr s => ret (sanitize_generated_text s)
  | _ =>
      if truthy raw
      then raise (OtherException (lit "AttributeError")
                                 (lit "object has no attribute 'strip'"))
      else ret []
  end.

(** [run_gemini]: a failed import raises before anything is sent. *)
Definition run_gemini (w : World) (prompt api_key : pystr) (attempt : Z)
  : M pyval :=
  if genai_installed w then
    emit (EvNetwork MODEL_NAME prompt api_key) ;;;
    ([], generate_content w api_key MODEL_NAME prompt attempt)
  else
    raise (RuntimeError (lit "Could not import google.genai. Install it with: pip install google-genai")).

(** The markers that classify an error text as transient. *)
Definition transient_tokens : list pystr :=
  [lit "503"; lit "UNAVAILABLE"; lit "overloaded"; lit "rate limit";
   lit "rate_limited"; lit "timeout"; lit "timed out"].

Definition is_transient (msg : pystr) : bool :=
  existsb (fun token => PyStr.contains token msg) transient_tokens.

(** [range(lo, hi)] *)
Definition py_range (lo hi : Z) : list Z :=
  map (fun i => (lo + Z.of_nat i)%Z) (seq 0 (Z.to_nat (hi - lo))).

(** How the retry loop is left: by [break] with a response (or by running
    out of iterations, with [response] still [None]), or by [return None]. *)
Inductive loop_exit :=
| LoopResponse (response : pyval)
| LoopReturnNone.

Definition warn_retry (attempt max_attempts : Z) (e : exn) (wait : Z) : pystr :=
  lit "WARN: transient Gemini error (attempt " ++ PyStr.of_Z attempt
  ++ lit "/" ++ PyStr.of_Z max_attempts ++ lit "): " ++ str_exn e
  ++ lit ". Retrying in " ++ PyStr.of_Z wait ++ lit "s...".

Definition warn_exhausted (max_attempts : Z) (e : exn) : pystr :=
  lit "WARN: Gemini unavailable after " ++ PyStr.of_Z max_attempts
  ++ lit " attempts: " ++ str_exn e
  ++ lit ". Skipping AI commit message generation.".

(** The [for attempt in range(1, max_attempts + 1)] loop of [run_hook].
    One iteration either leaves the loop ([Some]) or goes on to the next
    attempt ([None], the [continue]). *)
Fixpoint retry_loop (w : World) (prompt api_key : pystr) (max_attempts : Z)
    (attempts : list Z) : M loop_exit :=
  match attempts with
  | [] => ret (LoopResponse VNone)
  | attempt :: later =>
      step <-
        catch
          (response <- run_gemini w prompt api_key attempt ;;
           ret (Some (LoopResponse response)))
          (fun e =>
             let msg := str_exn e in
             if negb (is_transient msg) then
               raise (RuntimeError (lit "Gemini API call failed: " ++ str_exn e))
             else if (attempt <? max_attempts)%Z then
               let wait := (2 ^ (attempt - 1))%Z in
               emit (EvStderr (warn_retry attempt max_attempts e wait)) ;;;
               emit (EvSleep wait) ;;;
               ret None
             else
               emit (EvStderr (warn_exhausted max_attempts e)) ;;;
               ret (Some LoopReturnNone)) ;;
      match step with
      | Some out => ret out
      | None => retry_loop w prompt api_key max_attempts later
      end
  end.

(** The subject cap of [run_hook]: a subject longer than
    [MAX_SUBJECT_LENGTH] is cut there, and cut back to before the last
    space of the cut if it has one. *)
Definition cap_subject (subject : pystr) : pystr :=
  if MAX_SUBJECT_LENGTH <? length subject then
    let truncated := PyStr.take MAX_SUBJECT_LENGTH subject in
    if PyStr.contains_char space truncated then
      PyStr.rstrip
        (PyStr.join [space] (removelast (PyStr.split space truncated)))
    else truncated
  else subject.

(** The message [run_hook] builds from the non-empty sanitized text;
    [None] when the text has no line. *)
Definition format_message (cleaned : pystr) : option pystr :=
  match PyStr.splitlines cleaned with
  | [] => None
  | line0 :: more =>
      let subject := cap_subject (PyStr.strip line0) in
      let rest := PyStr.rstrip (PyStr.join [newline] more) in
      Some (subject ++
            (if PyStr.is_empty rest then [] else [newline; newline] ++ rest))
  end.

(** Writing the commit-message file: [open] may raise; otherwise the file
    is overwritten with the message and a final newline. *)
Definition write_message (w : World) (path message : pystr) : M unit :=
  match open_for_write w path with
  | Some e => raise e
  | None => emit (EvWrite path (message ++ [newline]))
  end.

(** The tail of [run_hook], once the loop has left a response: extract,
    sanitize, build the message, and return it (dry run) or write it. *)
Definition deliver (w : World) (commit_msg_filepath : pystr) (dry_run : bool)
    (response : pyval) : M (option pystr) :=
  let raw := extract_text_from_response w response in
  cleaned <- sanitize_generated_value raw ;;
  if PyStr.is_empty cleaned then
    raise (RuntimeError
      (lit "No text returned from Gemini or failed to parse response."))
  else
    match format_message cleaned with
    | None => ret None
    | Some final_message =>
        if dry_run then ret (Some final_message)
        else
          write_message w commit_msg_filepath final_message ;;;
          ret (Some final_message)
    end.

Definition max_attempts : Z := 3.

(** [run_hook] *)
Definition run_hook (w : World) (commit_msg_filepath : pystr)
    (commit_source : option pystr) (dry_run : bool) : M (option pystr) :=
  if is_user_message_source commit_source then ret None else
  diff_text <- get_staged_diff w ;;
  if PyStr.is_empty (PyStr.strip diff_text) then ret None else
  let prompt := build_prompt diff_text in
  api_key <- read_api_key w ;;
  out <- retry_loop w prompt api_key max_attempts
           (py_range 1 (max_attempts + 1)) ;;
  match out with
  | LoopReturnNone => ret None
  | LoopResponse response => deliver w commit_msg_filepath dry_run response
  end.

(** [main], after argument parsing: the exit status it returns, or the
    exception it lets through. *)
Definition main (w : World) (commit_msg_filepath : pystr)
    (commit_source : option pystr) (dry_run : bool) : M Z :=
  match run_hook w commit_msg_filepath commit_source dry_run with
  | (t, Raise (ValueError m)) =>
      (t ++ [EvStderr (lit "ERROR: " ++ m)], Ret 1%Z)
  | (t, Raise (RuntimeError m)) =>
      (t ++ [EvStderr (lit "ERROR: " ++ m)], Ret 2%Z)
  | (t, Raise e) => (t, Raise e)
  | (t, Ret result) =>
      match result with
      | Some (c :: msg) =>
          if dry_run then (t ++ [EvStdout (c :: msg)], Ret 0%Z)
          else (t, Ret 0%Z)
      | _ => (t, Ret 0%Z)
      end
  end.

(** ** Observations on a trace *)

Definition subprocess_calls (t : trace) : list (list pystr) :=
  flat_map (fun ev => match ev with EvSubprocess a => [a] | _ => [] end) t.

Definition network_calls (t : trace) : list (pystr * pystr * pystr) :=
  flat_map (fun ev => match ev with
                      | EvNetwork m p k => [(m, p, k)]
                      | _ => []
                      end) t.

Definition sleeps (t : trace) : list Z :=
  flat_map (fun ev => match ev with EvSleep n => [n] | _ => [] end) t.

Definition diagnostics (t : trace) : list pystr :=
  flat_map (fun ev => match ev with EvStderr l => [l] | _ => [] end) t.

Definition printed (t : trace) : list pystr :=
  flat_map (fun ev => match ev with EvStdout l => [l] | _ => [] end) t.

Definition writes (t : trace) : list (pystr * pystr) :=
  flat_map (fun ev => match ev with EvWrite p c => [(p, c)] | _ => [] end) t.

(** ** Vocabulary of the properties *)

(** Both ends of [t] carry a backtick, or both a double quote, or both a
    single quote: a wrapping layer the sanitizer would strip. *)
Definition wrapped (t : pystr) : bool :=
  (PyStr.startswith [backtick] t && PyStr.endswith [backtick] t)
  || (PyStr.startswith [dquote] t && PyStr.endswith [dquote] t)
  || (PyStr.startswith [squote] t && PyStr.endswith [squote] t).

(** The staged diff is blank when nothing is left of it after [strip]. *)
Definition blank (diff_text : pystr) : Prop := PyStr.strip diff_text = [].

(** The credential is missing: the variable is unset or empty. *)
Definition credential_missing (w : World) : Prop :=
  env_GEMINI_API_KEY w = None \/ env_GEMINI_API_KEY w = Some [].

(** A run that gets as far as the remote call: the gate is open, the diff
    command completed with a non-blank diff (whatever its exit status), the
    credential resolves to [key] and the SDK can be imported. *)
Definition reaches_generation (w : World) (commit_source : option pystr)
    (diff key : pystr) : Prop :=
  is_user_message_source commit_source = false
  /\ (exists rc, git_diff_staged w = ProcCompleted rc diff)
  /\ ~ blank diff
  /\ env_GEMINI_API_KEY w = Some key /\ key <> []
  /\ genai_installed w = true.

(** What the remote call of the given attempt does in such a run. *)
Definition remote (w : World) (diff key : pystr) (attempt : Z) : result pyval :=
  generate_content w key MODEL_NAME (build_prompt diff) attempt.

(** The remote call of the run, as an event. *)
Definition call (diff key : pystr) : event :=
  EvNetwork MODEL_NAME (build_prompt diff) key.

(** A subject and the truncation the cap leaves satisfy [word_boundary]
    when the cut falls between a non-blank end and a whitespace character of
    the subject. *)
Definition word_boundary (subject final : pystr) : Prop :=
  PyStr.rstrip final = final
  /\ exists c tail, subject = final ++ c :: tail /\ PyStr.isspace c = true.

(** [c] is the letter [l] up to ASCII case: [l] itself, or the character 32
    code points below it (its capital, when [l] is a small ASCII letter). *)
Definition same_letter (c l : ascii) : Prop :=
  c = l \/ nat_of_ascii c + 32 = nat_of_ascii l.

(** [tag] reads as [marker] when case is ignored. *)
Definition matches_nocase (tag marker : pystr) : Prop :=
  Forall2 same_letter tag marker.

Definition small_letter (l : ascii) : Prop :=
  97 <= nat_of_ascii l <= 122.

(** The events of a run whose first two remote calls fail with [e1] and
    [e2], both transient, up to and including the third call. *)
Definition two_retries (diff key : pystr) (e1 e2 : exn) : trace :=
  [EvSubprocess git_diff_argv;
   call diff key; EvStderr (warn_retry 1 3 e1 1); EvSleep 1;
   call diff key; EvStderr (warn_retry 2 3 e2 2); EvSleep 2;
   call diff key].

Definition missing_key_message : pystr :=
  lit "ERROR: GEMINI_API_KEY environment variable is not set.".

Definition diff_warning (e : exn) : pystr :=
  lit "WARN: running git diff failed: " ++ str_exn e.

(** No character of [s] is a line boundary. *)
Definition single_line (s : pystr) : Prop :=
  forallb (fun c => negb (PyStr.is_linebreak c)) s = true.

(** ** Sample worlds *)

Definition world_of (key : option pystr) (git : proc_outcome)
    (model : Z -> result pyval) : World :=
  {| env_GEMINI_API_KEY := key;
     git_diff_staged := git;
     genai_installed := true;
     generate_content := fun _ _ _ attempt => model attempt;
     str_of_object := fun _ => None;
     open_for_write := fun _ => None |}.

Definition sample_diff : pystr := lit "+print(hello)".
Definition sample_key : pystr := lit "test-key".
Definition sample_path : pystr := lit ".git/COMMIT_EDITMSG".

Definition text_response (s : pystr) : pyval := VObj [(lit "text", VStr s)].

Definition server_busy : exn :=
  OtherException (lit "ServerError") (lit "503 UNAVAILABLE").

Definition bad_key : exn :=
  OtherException (lit "ClientError") (lit "400 invalid api key").

Definition two_line_text : pystr := lit "fix: a" ++ [newline] ++ lit "b".

(** Two failures with a 503, then the given text. *)
Definition flaky_then (s : pystr) (attempt : Z) : result pyval :=
  if (attempt <? 3)%Z then Raise server_busy else Ret (text_response s).

Definition long_subject : pystr :=
  lit "feat(parser): add support for a very long subject line".

(** A message the model wrapped in two layers of quotes. *)
Definition doubly_quoted : pystr :=
  [dquote; squote] ++ lit "feat: x" ++ [squote; dquote].

(** A subject of 54 characters without any space. *)
Definition unbroken_subject : pystr :=
  lit "feat(parser):add_support_for_a_very_long_subject_line_".

Definition good_reply (_ : Z) : result pyval :=
  Ret (text_response (lit "feat: add hello print")).

(** The credential is not set; the diff is there. *)
Definition no_key_world : World :=
  world_of None (ProcCompleted 0 sample_diff) good_reply.

(** [git] cannot be found. *)
Definition git_missing : exn :=
  OtherException (lit "FileNotFoundError")
                 (lit "[Errno 2] No such file or directory: 'git'").

Definition no_git_world : World :=
  world_of (Some sample_key) (ProcRaised git_missing) good_reply.

(** [git diff --staged] exits with status 1 and prints nothing. *)
Definition failed_diff_world : World :=
  world_of (Some sample_key) (ProcCompleted 1 []) good_reply.

(** The model answers at the third attempt. *)
Definition flaky_world (s : pystr) : World :=
  world_of (Some sample_key) (ProcCompleted 0 sample_diff) (flaky_then s).

(** The model is unavailable at every attempt. *)
Definition busy_world : World :=
  world_of (Some sample_key) (ProcCompleted 0 sample_diff)
           (fun _ => Raise server_busy).

(** The model rejects the credential. *)
Definition bad_key_world : World :=
  world_of (Some sample_key) (ProcCompleted 0 sample_diff)
           (fun _ => Raise bad_key).

(** The model answers with an empty pair of fences. *)
Definition empty_reply_world : World :=
  world_of (Some sample_key) (ProcCompleted 0 sample_diff)
           (fun _ => Ret (text_response (fence ++ fence))).

(** The events of a run whose three remote calls fail, all transient. *)
Definition three_failures (diff key : pystr) (e1 e2 e3 : exn) : trace :=
  two_retries diff key e1 e2 ++ [EvStderr (warn_exhausted 3 e3)].

(** ** The functions the hook keeps beside the pipeline *)

(** [get_hook_args]: [argv] defaults to [sys.argv]; the first element is
    the program, the second the path of the commit-message file, the third,
    when there is one, the commit source. *)
Definition get_hook_args (sys_argv : list pystr) (argv : option (list pystr))
  : result (pystr * option pystr) :=
  let argv := match argv with None => sys_argv | Some a => a end in
  match argv with
  | _ :: commit_msg_filepath :: more =>
      Ret (commit_msg_filepath,
           match more with
           | commit_source :: _ => Some commit_source
           | [] => None
           end)
  | _ =>
      Raise (ValueError
        (lit "prepare-commit-msg expects at least 1 argument: commit_msg_filepath"))
  end.

(** ** Vocabulary of the further properties *)

(** [part] occurs in [whole] as a run of consecutive characters. *)
Definition infix (part whole : pystr) : Prop :=
  exists before after, whole = before ++ part ++ after.

(** [s] begins [whole]. *)
Definition prefix (s whole : pystr) : Prop :=
  exists after, whole = s ++ after.

(** What [str(resp)] gives the extraction as a last resort. *)
Definition last_resort (w : World) (resp : pyval) : pyval :=
  match py_str w resp with
  | Some s => VStr s
  | None => VStr []
  end.

(** The error text of a failed SDK import. *)
Definition import_error : pystr :=
  lit "Could not import google.genai. Install it with: pip install google-genai".

(** The events the retry loop can produce with a given prompt and key. *)
Inductive loop_event (prompt key : pystr) : event -> Prop :=
| loop_call : loop_event prompt key (EvNetwork MODEL_NAME prompt key)
| loop_warning line : loop_event prompt key (EvStderr line)
| loop_sleep seconds : loop_event prompt key (EvSleep seconds).

(** A reply object with a [candidates] list of parts and, beside it, a
    [text] attribute. *)
Definition candidate_reply (part_text top_text : pystr) : pyval :=
  VObj [(lit "candidates",
         VList [VObj [(lit "content",
                       VList [VDict [(lit "text", VStr part_text)]])]]);
        (lit "text", VStr top_text)].

(** A reply whose [candidates] attribute cannot be subscripted. *)
Definition odd_reply (top_text : pystr) : pyval :=
  VObj [(lit "candidates", VInt 1); (lit "text", VStr top_text)].

(** The first call fails with a 503, the second is rejected. *)
Definition busy_then_rejected (attempt : Z) : result pyval :=
  if (attempt <? 2)%Z then Raise server_busy else Raise bad_key.

Definition busy_then_rejected_world : World :=
  world_of (Some sample_key) (ProcCompleted 0 sample_diff) busy_then_rejected.

Definition good_world : World :=
  world_of (Some sample_key) (ProcCompleted 0 sample_diff) good_reply.

(** The SDK is not installed. *)
Definition no_sdk_world : World :=
  {| env_GEMINI_API_KEY := Some sample_key;
     git_diff_staged := ProcCompleted 0 sample_diff;
     genai_installed := false;
     generate_content := fun _ _ _ => good_reply;
     str_of_object := fun _ => None;
     open_for_write := fun _ => None |}.

(** The model answers with whitespace only. *)
Definition blank_reply_world : World :=
  world_of (Some sample_key) (ProcCompleted 0 sample_diff)
           (fun _ => Ret (text_response [space; newline; space])).

(** The commit-message file cannot be opened for writing. *)
Definition permission_denied : exn :=
  OtherException (lit "PermissionError") (lit "[Errno 13] Permission denied").

Definition readonly_world : World :=
  {| env_GEMINI_API_KEY := Some sample_key;
     git_diff_staged := ProcCompleted 0 sample_diff;
     genai_installed := true;
     generate_content := fun _ _ _ => good_reply;
     str_of_object := fun _ => None;
     open_for_write := fun _ => Some permission_denied |}.

Definition no_text_message : pystr :=
  lit "ERROR: No text returned from Gemini or failed to parse response.".

(** The model answers with a candidate whose text is a number. *)
Definition numeric_reply : pyval :=
  VObj [(lit "candidates", VList [VObj [(lit "text", VInt 7)]])].

Definition numeric_reply_world : World :=
  world_of (Some sample_key) (ProcCompleted 0 sample_diff)
           (fun _ => Ret numeric_reply).

(** The remote calls and the sleeps of a trace, in the order in which
    they happen. *)
Inductive mark :=
| Call
| Sleep (seconds : Z).

Definition calls_and_sleeps (t : trace) : list mark :=
  flat_map (fun ev => match ev with
                      | EvNetwork _ _ _ => [Call]
                      | EvSleep n => [Sleep n]
                      | _ => []
                      end) t.

(** ** The prompt template, as the source computes it *)

Definition lbrace : ascii := ascii_of_nat 123.
Definition rbrace : ascii := ascii_of_nat 125.

(** The triple-quoted literal of [build_prompt]: a newline, the
    instructions, the field [{diff}] and a newline. *)
Definition prompt_template : pystr :=
  [newline] ++ prompt_instructions ++ lit "{diff}" ++ [newline].

(** [template.format(diff=diff)] for templates whose replacement fields
    are plain names.  Doubled braces stand for one brace; [{name}] is
    replaced by the keyword argument of that name, and [diff] is the only
    one given.  [field] holds the name being read, reversed.  [None] is a
    raised exception (a lone brace, an unclosed field, a name other than
    [diff]); field names with a conversion or a format specification are
    not names here and give [None] too.  The text substituted is not
    scanned again. *)
Fixpoint format_from (field : option pystr) (template diff : pystr)
  : option pystr :=
  match template with
  | [] =>
      match field with
      | None => Some []
      | Some _ => None
      end
  | c :: rest =>
      match field with
      | Some name =>
          if Ascii.eqb c rbrace then
            if PyStr.eqb (rev name) (lit "diff")
            then option_map (app diff) (format_from None rest diff)
            else None
          else format_from (Some (c :: name)) rest diff
      | None =>
          if Ascii.eqb c lbrace then
            match rest with
            | d :: rest' =>
                if Ascii.eqb d lbrace
                then option_map (cons lbrace) (format_from None rest' diff)
                else format_from (Some []) rest diff
            | [] => None
            end
          else if Ascii.eqb c rbrace then
            match rest with
            | d :: rest' =>
                if Ascii.eqb d rbrace
                then option_map (cons rbrace) (format_from None rest' diff)
                else None
            | [] => None
            end
          else option_map (cons c) (format_from None rest diff)
      end
  end.

Definition py_format (template diff : pystr) : option pystr :=
  format_from None template diff.

(** [build_prompt] as the source writes it: the template is stripped,
    then formatted. *)
Definition build_prompt_source (diff_text : pystr) : option pystr :=
  py_format (PyStr.strip prompt_template) diff_text.

(** * Properties *)

(** ** Python string operations *)

Module PyStrFacts.
Import PyStr.

Lemma lstrip_idem s : lstrip (lstrip s) = lstrip s.
Proof.
  induction s as [|c s IH]; simpl; trivial.
  destruct (isspace c) eqn:E; trivial.
  simpl. now rewrite E.
Qed.

Lemma lstrip_app_nonspace x c y :
  isspace c = false -> lstrip (x ++ c :: y) = lstrip x ++ c :: y.
Proof.
  intros Hc. induction x as [|d x IH]; simpl.
  - now rewrite Hc.
  - destruct (isspace d); trivial.
Qed.

Lemma lstrip_all_space x :
  forallb isspace x = true -> lstrip x = [].
Proof.
  induction x as [|d x IH]; simpl; trivial.
  destruct (isspace d); simpl; auto. discriminate.
Qed.

(** [lstrip] drops a whitespace prefix and nothing else. *)
Lemma lstrip_decomp s :
  exists ws, s = ws ++ lstrip s /\ forallb isspace ws = true.
Proof.
  induction s as [|c s [ws [E F]]]; simpl.
  - now exists [].
  - destruct (isspace c) eqn:Hc.
    + exists (c :: ws). simpl. rewrite Hc, F. split; [now f_equal|trivial].
    + now exists [].
Qed.

(** [rstrip], read from the front. *)
Lemma rstrip_cons c s :
  rstrip (c :: s) =
  match rstrip s with
  | [] => if isspace c then [] else [c]
  | r => c :: r
  end.
Proof.
  unfold rstrip. simpl.
  destruct (lstrip_decomp (rev s)) as [ws [E F]].
  destruct (lstrip (rev s)) as [|d r] eqn:L.
  - rewrite app_nil_r in E. rewrite E.
    destruct (isspace c) eqn:Hc.
    + rewrite lstrip_all_space; trivial.
      rewrite forallb_app, F. simpl. now rewrite Hc.
    + rewrite lstrip_app_nonspace, lstrip_all_space; trivial.
  - assert (Hd : isspace d = false).
    { destruct (isspace d) eqn:Hd; trivial.
      assert (H := lstrip_idem (rev s)). rewrite L in H. simpl in H.
      rewrite Hd in H.
      assert (Hlen : length (lstrip r) <= length r).
      { clear. induction r as [|a r IH]; simpl; trivial.
        destruct (isspace a); simpl; lia. }
      rewrite H in Hlen. simpl in Hlen. lia. }
    rewrite E at 1. rewrite <- app_assoc. simpl.
    rewrite lstrip_app_nonspace by trivial.
    rewrite lstrip_all_space by trivial. simpl.
    rewrite rev_app_distr. simpl.
    destruct (rev r ++ [d]) eqn:R; trivial.
    destruct (rev r); discriminate.
Qed.

Lemma rstrip_nil : rstrip [] = [].
Proof. reflexivity. Qed.

Lemma rstrip_idem s : rstrip (rstrip s) = rstrip s.
Proof.
  unfold rstrip. now rewrite rev_involutive, lstrip_idem.
Qed.

Lemma lstrip_rstrip s : lstrip (rstrip s) = rstrip (lstrip s).
Proof.
  induction s as [|c s IH]; trivial.
  rewrite rstrip_cons. simpl lstrip at 2.
  destruct (isspace c) eqn:Hc.
  - rewrite <- IH. destruct (rstrip s) as [|d r]; trivial.
    simpl. now rewrite Hc.
  - rewrite rstrip_cons.
    destruct (rstrip s); simpl; now rewrite Hc.
Qed.

Lemma strip_idem s : strip (strip s) = strip s.
Proof.
  unfold strip.
  now rewrite lstrip_rstrip, lstrip_idem, rstrip_idem.
Qed.

Lemma rstrip_strip s : rstrip (strip s) = strip s.
Proof. unfold strip. apply rstrip_idem. Qed.

(** [rstrip] drops a whitespace suffix and nothing else. *)
Lemma rstrip_decomp s :
  exists ws, s = rstrip s ++ ws /\ forallb isspace ws = true.
Proof.
  unfold rstrip. destruct (lstrip_decomp (rev s)) as [ws [E F]].
  exists (rev ws). split.
  - rewrite <- rev_app_distr, <- E. now rewrite rev_involutive.
  - rewrite forallb_forall in *. intros x Hx. apply F. now apply in_rev.
Qed.

Lemma length_lstrip s : length (lstrip s) <= length s.
Proof.
  induction s as [|a r IH]; simpl; trivial.
  destruct (isspace a); simpl; lia.
Qed.

Lemma length_rstrip s : length (rstrip s) <= length s.
Proof.
  unfold rstrip. rewrite length_rev.
  etransitivity; [apply length_lstrip|]. now rewrite length_rev.
Qed.

Lemma length_strip s : length (strip s) <= length s.
Proof.
  unfold strip. etransitivity; [apply length_rstrip|apply length_lstrip].
Qed.

Lemma length_slice a b s : length (slice a b s) <= length s - a.
Proof.
  unfold slice. rewrite length_firstn, length_skipn. lia.
Qed.

Lemma startswith_nonempty p c s :
  startswith (c :: p) s = true -> 1 <= length s /\ startswith [c] s = true.
Proof.
  destruct s as [|d s]; simpl; [discriminate|].
  intros H. apply andb_prop in H as [H _]. rewrite H.
  split; [lia|reflexivity].
Qed.

Lemma startswith_length p s :
  startswith p s = true -> length p <= length s.
Proof.
  revert s. induction p as [|a p IH]; intros [|b s]; simpl;
    try lia; try discriminate.
  intros H. apply andb_prop in H as [_ H]. apply IH in H. lia.
Qed.

Lemma eqb_eq s t : eqb s t = true <-> s = t.
Proof.
  revert t. induction s as [|a s IH]; intros [|b t]; simpl;
    split; intros H; try discriminate; trivial.
  - apply andb_prop in H as [H1 H2].
    apply Ascii.eqb_eq in H1. apply IH in H2. now subst.
  - injection H as -> ->. rewrite Ascii.eqb_refl. now apply IH.
Qed.

End PyStrFacts.

(** ** The sanitizer *)

Section Sanitizer.
Import PyStr PyStrFacts.

Lemma kept_or_stripped (c : bool) x t :
  strip t = t ->
  strip (if c then strip x else t) = (if c then strip x else t).
Proof. intros H. destruct c; [apply strip_idem|exact H]. Qed.

(** The sanitizer's result has no surrounding whitespace. *)
Lemma sanitize_stripped s :
  strip (sanitize_generated_text s) = sanitize_generated_text s.
Proof.
  destruct s as [|a s]; [reflexivity|].
  unfold sanitize_generated_text. cbv zeta.
  do 3 apply kept_or_stripped. apply strip_idem.
Qed.

Lemma endswith_nonempty p c s :
  endswith (p ++ [c]) s = true -> endswith [c] s = true.
Proof.
  unfold endswith. rewrite rev_app_distr. simpl.
  intros H. now apply startswith_nonempty in H.
Qed.

Lemma fenced_is_wrapped t :
  startswith fence t && endswith fence t = true ->
  startswith [backtick] t && endswith [backtick] t = true.
Proof.
  intros H. apply andb_prop in H as [H1 H2].
  apply startswith_nonempty in H1 as [_ H1].
  apply (endswith_nonempty [backtick; backtick]) in H2.
  now rewrite H1, H2.
Qed.

(** A stripped text without wrapping layer is left as it is. *)
Lemma sanitize_unwrapped t :
  strip t = t -> wrapped t = false -> sanitize_generated_text t = t.
Proof.
  intros Hs Hw. destruct t as [|a t]; [reflexivity|].
  unfold wrapped in Hw.
  apply orb_false_elim in Hw as [Hw Hq'].
  apply orb_false_elim in Hw as [Hb Hq].
  unfold sanitize_generated_text. cbv zeta. rewrite Hs.
  destruct (startswith fence (a :: t) && endswith fence (a :: t)) eqn:Hf.
  - apply fenced_is_wrapped in Hf. congruence.
  - now rewrite Hb, Hq, Hq'.
Qed.

Lemma unwrap_le (c : bool) a b t :
  length (if c then strip (slice a b t) else t) <= length t.
Proof.
  destruct c; trivial.
  etransitivity; [apply length_strip|].
  etransitivity; [apply length_slice|]. lia.
Qed.

Lemma unwrap_lt a b t :
  1 <= a -> a <= length t -> length (strip (slice a b t)) < length t.
Proof.
  intros Ha Hl.
  assert (H1 := length_strip (slice a b t)).
  assert (H2 := length_slice a b t). lia.
Qed.

(** A stripped text with a wrapping layer loses at least one character. *)
Lemma sanitize_wrapped_shrinks t :
  strip t = t -> wrapped t = true ->
  length (sanitize_generated_text t) < length t.
Proof.
  intros Hs Hw. destruct t as [|a t]; [discriminate|].
  unfold sanitize_generated_text. cbv zeta. rewrite Hs.
  set (u := a :: t) in *. clearbody u.
  destruct (startswith fence u && endswith fence u) eqn:Hf.
  - assert (Hlt : length (strip (slice 3 3 u)) < length u).
    { apply andb_prop in Hf as [Hf _].
      apply startswith_length in Hf. simpl in Hf.
      apply unwrap_lt; lia. }
    eapply Nat.le_lt_trans; [apply unwrap_le|].
    eapply Nat.le_lt_trans; [apply unwrap_le|]. exact Hlt.
  - destruct (startswith [backtick] u && endswith [backtick] u) eqn:Hb.
    + eapply Nat.le_lt_trans; [apply unwrap_le|].
      apply andb_prop in Hb as [Hb _]. apply startswith_length in Hb.
      simpl in Hb. apply unwrap_lt; lia.
    + unfold wrapped in Hw. rewrite Hb, orb_false_l in Hw. rewrite Hw.
      apply orb_prop in Hw as [Hw|Hw]; apply andb_prop in Hw as [Hw _];
        apply startswith_length in Hw; simpl in Hw; apply unwrap_lt; lia.
Qed.

End Sanitizer.

(** C2, as the sanitizer behaves: each kind of wrapper is stripped once, so
    a second pass changes the result exactly when the first pass left a
    wrapping layer.  Sanitizing the sanitizer's output gives that output
    back if and only if the output is not itself wrapped in backticks or
    in matching quotes. *)
Theorem sanitize_idempotent_iff_unwrapped (s : pystr) :
  sanitize_generated_text (sanitize_generated_text s)
  = sanitize_generated_text s
  <-> wrapped (sanitize_generated_text s) = false.
Proof.
  split.
  - intros Hfix. destruct (wrapped (sanitize_generated_text s)) eqn:Hw; trivial.
    apply sanitize_wrapped_shrinks in Hw; [|apply sanitize_stripped].
    rewrite Hfix in Hw. lia.
  - intros Hw. apply sanitize_unwrapped; [apply sanitize_stripped|exact Hw].
Qed.

(** C2, as stated, fails on a text wrapped in two layers of quotes: the
    first pass strips the double quotes, the second the single quotes. *)
Lemma sanitize_not_idempotent :
  sanitize_generated_text doubly_quoted = [squote] ++ lit "feat: x" ++ [squote]
  /\ sanitize_generated_text (sanitize_generated_text doubly_quoted)
     = lit "feat: x"
  /\ sanitize_generated_text (sanitize_generated_text doubly_quoted)
     <> sanitize_generated_text doubly_quoted.
Proof.
  repeat split; try reflexivity.
  vm_compute. discriminate.
Qed.

(** ** The subject cap *)

Section SubjectCap.
Import PyStr PyStrFacts.

Lemma split_nonempty sep s : split sep s <> [].
Proof.
  destruct s as [|c s]; simpl; [discriminate|].
  destruct (Ascii.eqb c sep); [discriminate|].
  destruct (split sep s); discriminate.
Qed.

Lemma split_without_sep sep s :
  contains_char sep s = false -> split sep s = [s].
Proof.
  unfold contains_char.
  induction s as [|c s IH]; simpl; trivial.
  intros H. apply orb_false_elim in H as [Hc Hs].
  rewrite Ascii.eqb_sym, Hc, IH; trivial.
Qed.

Lemma split_app_sep sep a b :
  split sep (a ++ sep :: b) = split sep a ++ split sep b.
Proof.
  induction a as [|c a IH]; simpl.
  - now rewrite Ascii.eqb_refl.
  - destruct (Ascii.eqb c sep); rewrite IH; trivial.
    destruct (split sep a) eqn:E; trivial.
    now apply split_nonempty in E.
Qed.

Lemma join_split sep s : join [sep] (split sep s) = s.
Proof.
  induction s as [|c s IH]; trivial.
  simpl split. destruct (Ascii.eqb c sep) eqn:E.
  - apply Ascii.eqb_eq in E. subst c.
    destruct (split sep s) as [|w ws] eqn:S;
      [now apply split_nonempty in S|].
    change (join [sep] ([] :: w :: ws)) with (sep :: join [sep] (w :: ws)).
    now rewrite IH.
  - destruct (split sep s) as [|w ws] eqn:S;
      [now apply split_nonempty in S|].
    destruct ws as [|w' ws].
    + simpl in *. now subst.
    + change (join [sep] ((c :: w) :: w' :: ws))
        with (c :: join [sep] (w :: w' :: ws)).
      now rewrite IH.
Qed.

(** A text that has the separator splits at its last occurrence. *)
Lemma last_sep sep s :
  contains_char sep s = true ->
  exists pre post,
    s = pre ++ sep :: post /\ contains_char sep post = false.
Proof.
  unfold contains_char.
  induction s as [|c s IH]; simpl; [discriminate|].
  intros H. destruct (existsb (Ascii.eqb sep) s) eqn:E.
  - destruct (IH eq_refl) as [pre [post [-> Hp]]].
    now exists (c :: pre), post.
  - rewrite orb_false_r in H. apply Ascii.eqb_eq in H. subst c.
    now exists [], s.
Qed.

(** Dropping the last piece of a split and joining the others keeps what
    comes before the last separator. *)
Lemma join_removelast_split sep pre post :
  contains_char sep post = false ->
  join [sep] (removelast (split sep (pre ++ sep :: post))) = pre.
Proof.
  intros H.
  rewrite split_app_sep, (split_without_sep _ _ H), removelast_last.
  apply join_split.
Qed.

Lemma firstn_skipn_cut n (s : pystr) : s = firstn n s ++ skipn n s.
Proof. symmetry. apply firstn_skipn. Qed.

End SubjectCap.

(** C4.  A subject longer than 50 characters: if its first 50 characters
    hold a space, they are [pre], a space and a last word without space,
    and the final subject is [pre] without trailing whitespace: at most 50
    characters (fewer, in fact), ending where the subject has whitespace
    next; if they hold no space, the final subject is exactly these 50
    characters. *)
Theorem cap_subject_long (subject : pystr) :
  MAX_SUBJECT_LENGTH < length subject ->
  (PyStr.contains_char space (PyStr.take 50 subject) = true ->
     (exists pre word,
        PyStr.take 50 subject = pre ++ space :: word
        /\ PyStr.contains_char space word = false
        /\ cap_subject subject = PyStr.rstrip pre)
     /\ word_boundary subject (cap_subject subject)
     /\ length (cap_subject subject) <= 50)
  /\ (PyStr.contains_char space (PyStr.take 50 subject) = false ->
      cap_subject subject = PyStr.take 50 subject).
Proof.
  intros Hlen. unfold cap_subject.
  apply Nat.ltb_lt in Hlen. rewrite Hlen. cbv zeta.
  change (PyStr.take MAX_SUBJECT_LENGTH subject) with (PyStr.take 50 subject).
  split; intros Hsp; rewrite Hsp; [|reflexivity].
  destruct (last_sep _ _ Hsp) as [pre [word [Hcut Hword]]].
  rewrite Hcut, (join_removelast_split _ _ _ Hword).
  assert (Hpre : length pre < 50).
  { assert (H : length (PyStr.take 50 subject) <= 50)
      by (unfold PyStr.take; rewrite length_firstn; lia).
    rewrite Hcut, length_app in H. simpl in H. lia. }
  split; [|split].
  - now exists pre, word.
  - split; [apply PyStrFacts.rstrip_idem|].
    destruct (PyStrFacts.rstrip_decomp pre) as [ws [Hws Hall]].
    assert (Hsubj : subject
                    = PyStr.rstrip pre ++ (ws ++ space :: word ++ skipn 50 subject)).
    { rewrite (firstn_skipn_cut 50 subject) at 1.
      unfold PyStr.take in Hcut. rewrite Hcut.
      rewrite Hws at 1. now rewrite <- !app_assoc. }
    destruct ws as [|c ws].
    + exists space, (word ++ skipn 50 subject). split; [exact Hsubj|reflexivity].
    + exists c, (ws ++ space :: word ++ skipn 50 subject).
      split; [exact Hsubj|].
      simpl in Hall. now apply andb_prop in Hall as [Hc _].
  - assert (H := PyStrFacts.length_rstrip pre). lia.
Qed.

Lemma cap_subject_long_witness :
  MAX_SUBJECT_LENGTH < length long_subject
  /\ PyStr.contains_char space (PyStr.take 50 long_subject) = true
  /\ cap_subject long_subject
     = lit "feat(parser): add support for a very long subject"
  /\ word_boundary long_subject (cap_subject long_subject)
  /\ length (cap_subject long_subject) <= 50
  /\ MAX_SUBJECT_LENGTH < length unbroken_subject
  /\ PyStr.contains_char space (PyStr.take 50 unbroken_subject) = false
  /\ cap_subject unbroken_subject = PyStr.take 50 unbroken_subject.
Proof.
  assert (Hlong : MAX_SUBJECT_LENGTH < length long_subject)
    by (vm_compute; lia).
  assert (Hunbroken : MAX_SUBJECT_LENGTH < length unbroken_subject)
    by (vm_compute; lia).
  destruct (cap_subject_long long_subject Hlong) as [Hspace _].
  destruct (cap_subject_long unbroken_subject Hunbroken) as [_ Hnone].
  destruct (Hspace eq_refl) as (_ & Hboundary & Hbound).
  split; [exact Hlong|]. split; [reflexivity|]. split; [reflexivity|].
  split; [exact Hboundary|]. split; [exact Hbound|].
  split; [exact Hunbroken|]. split; [reflexivity|].
  now apply Hnone.
Defined.

(** ** The source gate *)

Section SourceGate.
Import PyStr PyStrFacts.

Lemma lower_char_small_letter c l :
  small_letter l -> (lower_char c = l <-> same_letter c l).
Proof.
  unfold small_letter, same_letter, lower_char. intros Hl.
  assert (Hc := nat_ascii_bounded c).
  set (n := nat_of_ascii c) in *.
  destruct (((65 <=? n) && (n <=? 90))
            || ((192 <=? n) && (n <=? 222) && negb (n =? 215))) eqn:E.
  - assert (Hn : 65 <= n <= 90 \/ 192 <= n <= 222).
    { rewrite orb_true_iff, !andb_true_iff, !Nat.leb_le in E. lia. }
    assert (Hemb : nat_of_ascii (ascii_of_nat (n + 32)) = n + 32)
      by (apply nat_ascii_embedding; lia).
    split.
    + intros <-. right. now rewrite Hemb.
    + intros [->|H].
      * subst n. lia.
      * rewrite H. apply ascii_nat_embedding.
  - assert (Hn : ~ 65 <= n <= 90).
    { rewrite orb_false_iff, !andb_false_iff, !Nat.leb_gt in E. lia. }
    split; [now left|]. intros [H|H]; [exact H|lia].
Qed.

Lemma lower_matches tag marker :
  Forall small_letter marker ->
  (lower tag = marker <-> matches_nocase tag marker).
Proof.
  unfold lower, matches_nocase.
  intros Hm. revert tag.
  induction Hm as [|l marker Hl Hm IH]; intros [|c tag]; simpl.
  - split; [constructor|reflexivity].
  - split; [discriminate|inversion 1].
  - split; [discriminate|inversion 1].
  - split.
    + intros H. injection H as H1 H2. constructor.
      * now apply lower_char_small_letter.
      * now apply IH.
    + intros H. inversion H as [|? ? ? ? H1 H2]; subst.
      f_equal; [now apply lower_char_small_letter|now apply IH].
Qed.

Lemma small_letters_message : Forall small_letter (lit "message").
Proof. repeat constructor; vm_compute; lia. Qed.

Lemma small_letters_commit : Forall small_letter (lit "commit").
Proof. repeat constructor; vm_compute; lia. Qed.

Lemma gate_spec tag :
  is_user_message_source (Some tag) = true
  <-> lower tag = lit "message" \/ lower tag = lit "commit".
Proof.
  destruct tag as [|c tag].
  - simpl. split; [discriminate|]. intros [H|H]; discriminate.
  - unfold is_user_message_source.
    now rewrite orb_true_iff, !eqb_eq.
Qed.

End SourceGate.

(** C10.  The gate compares the lowercased tag with two literals: it
    reports skip exactly when the tag lowercased is "message" or "commit",
    that is, when the tag reads as one of the two whatever the case of its
    letters.  "MESSAGE" and "Commit" skip; "template", "merge", "squash" and
    the empty tag proceed. *)
Theorem source_gate_case_insensitive :
  (forall tag,
      is_user_message_source (Some tag) = true
      <-> PyStr.lower tag = lit "message" \/ PyStr.lower tag = lit "commit")
  /\ (forall tag,
      is_user_message_source (Some tag) = true
      <-> matches_nocase tag (lit "message")
          \/ matches_nocase tag (lit "commit"))
  /\ is_user_message_source (Some (lit "MESSAGE")) = true
  /\ is_user_message_source (Some (lit "Commit")) = true
  /\ is_user_message_source (Some (lit "template")) = false
  /\ is_user_message_source (Some (lit "merge")) = false
  /\ is_user_message_source (Some (lit "squash")) = false
  /\ is_user_message_source (Some []) = false.
Proof.
  split; [exact gate_spec|].
  split; [|repeat split; reflexivity].
  intros tag. rewrite gate_spec.
  now rewrite (lower_matches tag _ small_letters_message),
              (lower_matches tag _ small_letters_commit).
Qed.

(** ** The pipeline, stage by stage *)

Section Pipeline.
Variable w : World.
Variable path : pystr.
Variable dry_run : bool.

Lemma attempts_are_1_2_3 :
  py_range 1 (max_attempts + 1) = [1; 2; 3]%Z.
Proof. reflexivity. Qed.

Lemma run_hook_skipped src :
  is_user_message_source src = true ->
  run_hook w path src dry_run = ([], Ret None).
Proof. intros H. unfold run_hook. now rewrite H. Qed.

Lemma get_staged_diff_raised e :
  git_diff_staged w = ProcRaised e ->
  get_staged_diff w
  = ([EvSubprocess git_diff_argv; EvStderr (diff_warning e)], Ret []).
Proof. intros H. unfold get_staged_diff. now rewrite H. Qed.

Lemma get_staged_diff_completed rc out :
  git_diff_staged w = ProcCompleted rc out ->
  get_staged_diff w = ([EvSubprocess git_diff_argv], Ret out).
Proof. intros H. unfold get_staged_diff. now rewrite H. Qed.

(** The diff collector always returns. *)
Lemma get_staged_diff_returns :
  exists t diff, get_staged_diff w = (t, Ret diff).
Proof.
  unfold get_staged_diff. destruct (git_diff_staged w); simpl; eauto.
Qed.

Lemma is_empty_blank diff :
  PyStr.is_empty (PyStr.strip diff) = true <-> blank diff.
Proof.
  unfold blank. destruct (PyStr.strip diff); simpl; split;
    trivial; discriminate.
Qed.

Lemma is_empty_nonblank diff :
  ~ blank diff -> PyStr.is_empty (PyStr.strip diff) = false.
Proof.
  intros H. destruct (PyStr.is_empty (PyStr.strip diff)) eqn:E; trivial.
  now apply is_empty_blank in E.
Qed.

Lemma run_hook_blank src t diff :
  is_user_message_source src = false ->
  get_staged_diff w = (t, Ret diff) -> blank diff ->
  run_hook w path src dry_run = (t, Ret None).
Proof.
  intros Hg Hd Hb. unfold run_hook. rewrite Hg, Hd. simpl.
  apply is_empty_blank in Hb. rewrite Hb. simpl. now rewrite app_nil_r.
Qed.

Lemma read_api_key_missing :
  credential_missing w ->
  read_api_key w
  = ([], Raise (ValueError
       (lit "GEMINI_API_KEY environment variable is not set."))).
Proof. intros [H|H]; unfold read_api_key; now rewrite H. Qed.

Lemma read_api_key_present key :
  env_GEMINI_API_KEY w = Some key -> key <> [] ->
  read_api_key w = ([], Ret key).
Proof.
  intros H Hk. unfold read_api_key. rewrite H.
  destruct key; [contradiction|reflexivity].
Qed.

Lemma run_hook_missing_key src t diff :
  is_user_message_source src = false ->
  get_staged_diff w = (t, Ret diff) -> ~ blank diff ->
  credential_missing w ->
  run_hook w path src dry_run
  = (t, Raise (ValueError
       (lit "GEMINI_API_KEY environment variable is not set."))).
Proof.
  intros Hg Hd Hb Hk. unfold run_hook. rewrite Hg, Hd. simpl.
  rewrite (is_empty_nonblank _ Hb), (read_api_key_missing Hk). simpl.
  now rewrite app_nil_r.
Qed.

(** A run that reaches the remote call is the diff subprocess followed
    by the retry loop and the delivery of its response. *)
Lemma run_hook_generation src diff key :
  reaches_generation w src diff key ->
  run_hook w path src dry_run
  = (emit (EvSubprocess git_diff_argv) ;;;
     out <- retry_loop w (build_prompt diff) key 3 [1; 2; 3]%Z ;;
     match out with
     | LoopReturnNone => ret None
     | LoopResponse response => deliver w path dry_run response
     end).
Proof.
  intros (Hg & [rc Hd] & Hb & Hk & Hne & _).
  unfold run_hook. rewrite Hg, (get_staged_diff_completed rc diff Hd).
  unfold bind at 1. unfold emit, bind at 1.
  rewrite (is_empty_nonblank _ Hb), (read_api_key_present key Hk Hne).
  rewrite attempts_are_1_2_3. unfold bind, max_attempts.
  destruct (retry_loop w (build_prompt diff) key 3 [1; 2; 3]%Z)
    as [t [out|e]]; [|reflexivity].
  destruct out as [response|]; [|reflexivity].
  now destruct (deliver w path dry_run response).
Qed.

End Pipeline.

(** ** The retry loop *)

Section RetryLoop.
Variable w : World.
Variables prompt key : pystr.
Variable m : Z.

Lemma run_gemini_installed a :
  genai_installed w = true ->
  run_gemini w prompt key a
  = ([EvNetwork MODEL_NAME prompt key],
     generate_content w key MODEL_NAME prompt a).
Proof. intros H. unfold run_gemini. now rewrite H. Qed.

Lemma retry_loop_break a later t resp :
  run_gemini w prompt key a = (t, Ret resp) ->
  retry_loop w prompt key m (a :: later) = (t, Ret (LoopResponse resp)).
Proof.
  intros H. cbn [retry_loop]. rewrite H. simpl. now rewrite !app_nil_r.
Qed.

Lemma retry_loop_fatal a later t e :
  run_gemini w prompt key a = (t, Raise e) ->
  is_transient (str_exn e) = false ->
  retry_loop w prompt key m (a :: later)
  = (t, Raise (RuntimeError (lit "Gemini API call failed: " ++ str_exn e))).
Proof.
  intros H Ht. cbn [retry_loop]. rewrite H. unfold bind at 2.
  unfold catch. rewrite Ht. simpl. now rewrite !app_nil_r.
Qed.

Lemma retry_loop_again a later t e :
  run_gemini w prompt key a = (t, Raise e) ->
  is_transient (str_exn e) = true ->
  (a <? m)%Z = true ->
  retry_loop w prompt key m (a :: later)
  = (let (t', r) := retry_loop w prompt key m later in
     (t ++ [EvStderr (warn_retry a m e (2 ^ (a - 1))); EvSleep (2 ^ (a - 1))]
        ++ t', r)).
Proof.
  intros H Ht Ha. cbn [retry_loop]. rewrite H. unfold bind at 2.
  unfold catch. rewrite Ht, Ha. cbn [negb]. cbv zeta.
  unfold bind, emit, ret.
  destruct (retry_loop w prompt key m later) as [t' r].
  now rewrite <- !app_assoc.
Qed.

Lemma retry_loop_give_up a later t e :
  run_gemini w prompt key a = (t, Raise e) ->
  is_transient (str_exn e) = true ->
  (a <? m)%Z = false ->
  retry_loop w prompt key m (a :: later)
  = (t ++ [EvStderr (warn_exhausted m e)], Ret LoopReturnNone).
Proof.
  intros H Ht Ha. cbn [retry_loop]. rewrite H. unfold bind at 2.
  unfold catch. rewrite Ht, Ha. cbn [negb].
  unfold bind, emit, ret. now rewrite !app_nil_r.
Qed.

(** The loop lets nothing but a [RuntimeError] through. *)
Lemma retry_loop_raises_runtime_error attempts t e :
  retry_loop w prompt key m attempts = (t, Raise e) ->
  exists msg, e = RuntimeError msg.
Proof.
  revert t. induction attempts as [|a later IH]; intros t H.
  - discriminate.
  - destruct (run_gemini w prompt key a) as [t0 [resp|e0]] eqn:R.
    + rewrite (retry_loop_break a later _ _ R) in H. discriminate.
    + destruct (is_transient (str_exn e0)) eqn:Ht.
      * destruct (a <? m)%Z eqn:Ha.
        -- rewrite (retry_loop_again a later _ _ R Ht Ha) in H.
           destruct (retry_loop w prompt key m later) as [t' [out|e']].
           ++ discriminate.
           ++ injection H as _ <-. now apply (IH t').
        -- rewrite (retry_loop_give_up a later _ _ R Ht Ha) in H. discriminate.
      * rewrite (retry_loop_fatal a later _ _ R Ht) in H. injection H as _ <-. eauto.
Qed.

End RetryLoop.

Lemma transient_503 msg :
  PyStr.contains (lit "503") msg = true -> is_transient msg = true.
Proof.
  intros H. unfold is_transient, transient_tokens. cbn [existsb].
  now rewrite H.
Qed.

Section Scenarios.
Variable w : World.
Variables diff key : pystr.
Hypothesis installed : genai_installed w = true.

Lemma attempt_outcome a :
  run_gemini w (build_prompt diff) key a = ([call diff key], remote w diff key a).
Proof. now apply run_gemini_installed. Qed.

Lemma loop_first_attempt_fatal e :
  remote w diff key 1 = Raise e ->
  is_transient (str_exn e) = false ->
  retry_loop w (build_prompt diff) key 3 [1; 2; 3]%Z
  = ([call diff key],
     Raise (RuntimeError (lit "Gemini API call failed: " ++ str_exn e))).
Proof.
  intros H Ht. apply retry_loop_fatal; trivial.
  now rewrite attempt_outcome, H.
Qed.

Lemma loop_third_attempt e1 e2 :
  remote w diff key 1 = Raise e1 -> is_transient (str_exn e1) = true ->
  remote w diff key 2 = Raise e2 -> is_transient (str_exn e2) = true ->
  retry_loop w (build_prompt diff) key 3 [1; 2; 3]%Z
  = (let (t', r) := retry_loop w (build_prompt diff) key 3 [3%Z] in
     ([call diff key; EvStderr (warn_retry 1 3 e1 1); EvSleep 1;
       call diff key; EvStderr (warn_retry 2 3 e2 2); EvSleep 2] ++ t', r)).
Proof.
  intros H1 T1 H2 T2.
  rewrite (@retry_loop_again w (build_prompt diff) key 3 1 [2; 3]%Z [call diff key] e1);
    trivial; [|now rewrite attempt_outcome, H1].
  rewrite (@retry_loop_again w (build_prompt diff) key 3 2 [3]%Z [call diff key] e2);
    trivial; [|now rewrite attempt_outcome, H2].
  now destruct (retry_loop w (build_prompt diff) key 3 [3%Z]).
Qed.

Lemma loop_success_on_third e1 e2 resp :
  remote w diff key 1 = Raise e1 -> is_transient (str_exn e1) = true ->
  remote w diff key 2 = Raise e2 -> is_transient (str_exn e2) = true ->
  remote w diff key 3 = Ret resp ->
  retry_loop w (build_prompt diff) key 3 [1; 2; 3]%Z
  = ([call diff key; EvStderr (warn_retry 1 3 e1 1); EvSleep 1;
      call diff key; EvStderr (warn_retry 2 3 e2 2); EvSleep 2;
      call diff key],
     Ret (LoopResponse resp)).
Proof.
  intros H1 T1 H2 T2 H3. rewrite (loop_third_attempt e1 e2 H1 T1 H2 T2).
  rewrite (@retry_loop_break w (build_prompt diff) key 3 3 [] [call diff key] resp);
    trivial.
  now rewrite attempt_outcome, H3.
Qed.

Lemma loop_exhausted e1 e2 e3 :
  remote w diff key 1 = Raise e1 -> is_transient (str_exn e1) = true ->
  remote w diff key 2 = Raise e2 -> is_transient (str_exn e2) = true ->
  remote w diff key 3 = Raise e3 -> is_transient (str_exn e3) = true ->
  retry_loop w (build_prompt diff) key 3 [1; 2; 3]%Z
  = ([call diff key; EvStderr (warn_retry 1 3 e1 1); EvSleep 1;
      call diff key; EvStderr (warn_retry 2 3 e2 2); EvSleep 2;
      call diff key; EvStderr (warn_exhausted 3 e3)],
     Ret LoopReturnNone).
Proof.
  intros H1 T1 H2 T2 H3 T3. rewrite (loop_third_attempt e1 e2 H1 T1 H2 T2).
  rewrite (@retry_loop_give_up w (build_prompt diff) key 3 3 [] [call diff key] e3);
    trivial.
  now rewrite attempt_outcome, H3.
Qed.

End Scenarios.

(** ** Building and delivering the message *)

Section Delivery.
Import PyStr PyStrFacts.

Lemma linebreak_isspace c : is_linebreak c = true -> isspace c = true.
Proof.
  unfold is_linebreak, isspace. set (n := nat_of_ascii c).
  rewrite !orb_true_iff, !andb_true_iff, !Nat.leb_le, !Nat.eqb_eq. lia.
Qed.

Lemma stripped_head c s : strip (c :: s) = c :: s -> isspace c = false.
Proof.
  intros H. destruct (isspace c) eqn:E; trivial.
  assert (L : length (strip (c :: s)) <= length s).
  { unfold strip. simpl lstrip. rewrite E.
    etransitivity; [apply length_rstrip|apply length_lstrip]. }
  rewrite H in L. simpl in L. lia.
Qed.

Lemma rstrip_cons_nonspace c s :
  isspace c = false -> rstrip (c :: s) = c :: rstrip s.
Proof.
  intros H. rewrite rstrip_cons, H. now destruct (rstrip s).
Qed.

Lemma strip_cons_nonspace c s :
  isspace c = false -> strip (c :: s) = c :: rstrip s.
Proof.
  intros H. unfold strip. simpl lstrip. rewrite H.
  now apply rstrip_cons_nonspace.
Qed.

(** A line that has begun is closed as the first line of the result. *)
Lemma splitlines_from_begun cur s :
  cur <> [] ->
  exists l more, splitlines_from cur s = (rev cur ++ l) :: more.
Proof.
  revert cur. induction s as [|c s IH]; intros cur Hcur; simpl.
  - destruct cur; [contradiction|]. exists [], []. now rewrite app_nil_r.
  - destruct (is_linebreak c).
    + eexists [], _. now rewrite app_nil_r.
    + destruct (IH (c :: cur)) as [l [more E]]; [discriminate|].
      exists (c :: l), more. rewrite E. simpl. now rewrite <- app_assoc.
Qed.

Lemma splitlines_from_single_line cur s :
  single_line s -> cur <> [] \/ s <> [] ->
  splitlines_from cur s = [rev cur ++ s].
Proof.
  unfold single_line. revert cur.
  induction s as [|c s IH]; intros cur Hs Hne; simpl in *.
  - destruct Hne as [Hne|Hne]; [|contradiction].
    destruct cur; [contradiction|]. now rewrite app_nil_r.
  - apply andb_prop in Hs as [Hc Hs]. apply negb_true_iff in Hc.
    rewrite Hc, IH; trivial; [|left; discriminate].
    simpl. now rewrite <- app_assoc.
Qed.

Lemma cap_subject_short s :
  length s <= MAX_SUBJECT_LENGTH -> cap_subject s = s.
Proof.
  intros H. unfold cap_subject.
  now apply Nat.ltb_ge in H as ->.
Qed.

Lemma cap_subject_head c x :
  isspace c = false -> exists r, cap_subject (c :: x) = c :: r.
Proof.
  intros Hc. unfold cap_subject.
  destruct (MAX_SUBJECT_LENGTH <? length (c :: x)); [|eauto].
  cbv zeta. change (take MAX_SUBJECT_LENGTH (c :: x)) with (c :: take 49 x).
  destruct (contains_char space (c :: take 49 x)) eqn:E; [|eauto].
  destruct (last_sep _ _ E) as [pre [word [Hcut Hword]]].
  rewrite Hcut, (join_removelast_split _ _ _ Hword).
  destruct pre as [|c' pre]; injection Hcut as Hhead _.
  - rewrite Hhead in Hc. discriminate.
  - subst c'. rewrite rstrip_cons_nonspace; eauto.
Qed.

(** A sanitized text that is not empty always gives a message, and the
    message is not empty. *)
Lemma format_message_nonempty cleaned :
  strip cleaned = cleaned -> cleaned <> [] ->
  exists c msg, format_message cleaned = Some (c :: msg).
Proof.
  intros Hs Hne. destruct cleaned as [|c s]; [contradiction|].
  assert (Hc := stripped_head _ _ Hs).
  assert (Hl : is_linebreak c = false).
  { destruct (is_linebreak c) eqn:E; trivial.
    apply linebreak_isspace in E. congruence. }
  unfold format_message, splitlines. cbn [splitlines_from]. rewrite Hl.
  destruct (@splitlines_from_begun [c] s) as [l [more E]]; [discriminate|].
  rewrite E. simpl rev. simpl app at 1.
  rewrite (@strip_cons_nonspace c l Hc).
  destruct (@cap_subject_head c (rstrip l) Hc) as [r ->].
  simpl. eauto.
Qed.

Lemma format_message_single_line cleaned :
  strip cleaned = cleaned -> cleaned <> [] ->
  single_line cleaned -> length cleaned <= MAX_SUBJECT_LENGTH ->
  format_message cleaned = Some cleaned.
Proof.
  intros Hs Hne Hl Hlen. unfold format_message, splitlines.
  rewrite splitlines_from_single_line; auto.
  simpl rev. simpl app at 1. rewrite Hs, (@cap_subject_short cleaned Hlen).
  simpl. now rewrite app_nil_r.
Qed.

End Delivery.

Section Deliver.
Variable w : World.
Variable path : pystr.

Lemma deliver_text dry_run resp raw final :
  extract_text_from_response w resp = VStr raw ->
  sanitize_generated_text raw <> [] ->
  format_message (sanitize_generated_text raw) = Some final ->
  deliver w path dry_run resp
  = if dry_run then ([], Ret (Some final))
    else match open_for_write w path with
         | None => ([EvWrite path (final ++ [newline])], Ret (Some final))
         | Some e => ([], Raise e)
         end.
Proof.
  intros Hx Hne Hf. unfold deliver. rewrite Hx. cbn [sanitize_generated_value].
  unfold bind at 1. unfold ret at 1.
  destruct (sanitize_generated_text raw) eqn:E; [contradiction|].
  cbn [PyStr.is_empty]. rewrite Hf.
  destruct dry_run; [reflexivity|].
  unfold write_message. now destruct (open_for_write w path).
Qed.

Lemma deliver_empty dry_run resp :
  sanitize_generated_value (extract_text_from_response w resp) = ret [] ->
  deliver w path dry_run resp
  = ([], Raise (RuntimeError
       (lit "No text returned from Gemini or failed to parse response."))).
Proof. intros H. unfold deliver. now rewrite H. Qed.

(** Delivery raises a [ValueError] only if opening the file does. *)
Lemma deliver_value_error dry_run resp t msg :
  deliver w path dry_run resp = (t, Raise (ValueError msg)) ->
  dry_run = false /\ open_for_write w path = Some (ValueError msg).
Proof.
  unfold deliver.
  destruct (sanitize_generated_value (extract_text_from_response w resp))
    as [t0 [cleaned|e]] eqn:S.
  - unfold bind. destruct (PyStr.is_empty cleaned); [discriminate|].
    destruct (format_message cleaned); [|discriminate].
    destruct dry_run; [discriminate|].
    unfold write_message. destruct (open_for_write w path) as [e|].
    + simpl. intros H. injection H as _ ->. auto.
    + discriminate.
  - unfold sanitize_generated_value in S.
    destruct (extract_text_from_response w resp); try discriminate;
      destruct (truthy _); try discriminate;
      injection S as _ <-; discriminate.
Qed.

End Deliver.

(** [main] turns the outcome of [run_hook] into the exit status. *)
Lemma main_status w path src dry_run :
  snd (main w path src dry_run)
  = match snd (run_hook w path src dry_run) with
    | Ret _ => Ret 0%Z
    | Raise (ValueError _) => Ret 1%Z
    | Raise (RuntimeError _) => Ret 2%Z
    | Raise e => Raise e
    end.
Proof.
  unfold main. destruct (run_hook w path src dry_run) as [t [r|e]].
  - destruct r as [[|c msg]|]; trivial. now destruct dry_run.
  - now destruct e.
Qed.

(** ** The claims about the pipeline *)

Lemma sample_reaches_generation model :
  reaches_generation
    (world_of (Some sample_key) (ProcCompleted 0 sample_diff) model)
    None sample_diff sample_key.
Proof.
  unfold reaches_generation. repeat split; trivial; try discriminate.
  now exists 0%Z.
Qed.

(** C9.  For the commit sources "message" (a message given with -m) and
    "commit" (an amend), whatever the world holds, [run_hook] returns
    [None] with an empty trace: nothing is spawned, sent, printed or
    written, and [main] exits with 0.  Without a source the gate is open and
    the run goes on to collect the diff.  The gate itself is a function to
    [bool]: it has no effect to perform. *)
Theorem user_message_source_skips (w : World) (path : pystr) (dry_run : bool) :
  run_hook w path (Some (lit "message")) dry_run = ([], Ret None)
  /\ run_hook w path (Some (lit "commit")) dry_run = ([], Ret None)
  /\ main w path (Some (lit "message")) dry_run = ([], Ret 0%Z)
  /\ main w path (Some (lit "commit")) dry_run = ([], Ret 0%Z)
  /\ is_user_message_source None = false
  /\ exists t r,
       run_hook w path None dry_run = (EvSubprocess git_diff_argv :: t, r).
Proof.
  repeat split; trivial.
  unfold run_hook. cbn [is_user_message_source].
  destruct (get_staged_diff_returns w) as [t [diff E]].
  assert (Ht : exists t', t = EvSubprocess git_diff_argv :: t').
  { unfold get_staged_diff in E.
    destruct (git_diff_staged w); injection E as <- _; simpl; eauto. }
  destruct Ht as [t' ->]. rewrite E. unfold bind at 1.
  match goal with
  | |- exists _ _, (let (_, _) := ?k in _) = _ => destruct k as [t2 r2]
  end.
  simpl. eauto.
Qed.

Lemma main_of_value_error w path src dry_run t msg :
  run_hook w path src dry_run = (t, Raise (ValueError msg)) ->
  main w path src dry_run = (t ++ [EvStderr (lit "ERROR: " ++ msg)], Ret 1%Z).
Proof. intros H. unfold main. now rewrite H. Qed.

Lemma main_of_runtime_error w path src dry_run t msg :
  run_hook w path src dry_run = (t, Raise (RuntimeError msg)) ->
  main w path src dry_run = (t ++ [EvStderr (lit "ERROR: " ++ msg)], Ret 2%Z).
Proof. intros H. unfold main. now rewrite H. Qed.

Lemma main_of_none w path src dry_run t :
  run_hook w path src dry_run = (t, Ret None) ->
  main w path src dry_run = (t, Ret 0%Z).
Proof. intros H. unfold main. now rewrite H. Qed.

Lemma main_of_message w path src dry_run t c msg :
  run_hook w path src dry_run = (t, Ret (Some (c :: msg))) ->
  main w path src dry_run
  = (t ++ (if dry_run then [EvStdout (c :: msg)] else []), Ret 0%Z).
Proof.
  intros H. unfold main. rewrite H.
  destruct dry_run; trivial. now rewrite app_nil_r.
Qed.

(** C1, as the hook is ordered: the credential is read after the gate and
    after the diff has been collected.  When the variable is unset or empty,
    the source is not a skip marker and the staged diff is not blank, [main]
    exits with 1 after exactly one subprocess invocation, the diff command,
    and the error line; no remote call, no sleep and no write happens. *)
Theorem missing_credential_fails_after_diff
    (w : World) (path : pystr) (src : option pystr) (dry_run : bool)
    (rc : Z) (diff : pystr) :
  credential_missing w ->
  is_user_message_source src = false ->
  git_diff_staged w = ProcCompleted rc diff ->
  ~ blank diff ->
  main w path src dry_run
  = ([EvSubprocess git_diff_argv; EvStderr missing_key_message], Ret 1%Z)
  /\ subprocess_calls (fst (main w path src dry_run)) = [git_diff_argv]
  /\ network_calls (fst (main w path src dry_run)) = []
  /\ sleeps (fst (main w path src dry_run)) = []
  /\ writes (fst (main w path src dry_run)) = [].
Proof.
  intros Hk Hg Hd Hb.
  assert (E : main w path src dry_run
              = ([EvSubprocess git_diff_argv; EvStderr missing_key_message],
                 Ret 1%Z)).
  { apply (@main_of_value_error w path src dry_run [EvSubprocess git_diff_argv]).
    eapply run_hook_missing_key; eauto.
    eapply get_staged_diff_completed; eauto. }
  rewrite E. repeat split.
Qed.

Lemma missing_credential_fails_after_diff_witness :
  credential_missing no_key_world
  /\ main no_key_world sample_path None false
     = ([EvSubprocess git_diff_argv; EvStderr missing_key_message], Ret 1%Z).
Proof.
  assert (Hk : credential_missing no_key_world) by (left; reflexivity).
  split; [exact Hk|].
  apply (@missing_credential_fails_after_diff
           no_key_world sample_path None false 0%Z sample_diff);
    trivial; discriminate.
Defined.

(** C1, as stated, fails: with the credential unset, an open gate and a
    staged diff, the exit status is 1 but the diff subprocess has been
    invoked before the credential is looked at. *)
Lemma missing_credential_after_subprocess :
  env_GEMINI_API_KEY no_key_world = None
  /\ is_user_message_source None = false
  /\ ~ blank sample_diff
  /\ snd (main no_key_world sample_path None false) = Ret 1%Z
  /\ subprocess_calls (fst (main no_key_world sample_path None false)) <> [].
Proof.
  repeat split; try discriminate.
Qed.

(** C3, as the collector behaves: only a raised exception counts as a
    failure of the diff command.  When invoking it raises (the tool is
    missing, the process cannot be started), the collector returns the empty
    text after a warning on the diagnostic stream, and the run stops there:
    [None], exit status 0, nothing sent, printed or written.  When it
    completes, with any exit status, the collector returns the captured
    output without a warning, and the run stops there in the same way when
    that output is blank. *)
Theorem diff_failure_is_recovered
    (w : World) (path : pystr) (src : option pystr) (dry_run : bool) :
  is_user_message_source src = false ->
  (forall e, git_diff_staged w = ProcRaised e ->
     get_staged_diff w
     = ([EvSubprocess git_diff_argv; EvStderr (diff_warning e)], Ret [])
     /\ run_hook w path src dry_run
        = ([EvSubprocess git_diff_argv; EvStderr (diff_warning e)], Ret None)
     /\ main w path src dry_run
        = ([EvSubprocess git_diff_argv; EvStderr (diff_warning e)], Ret 0%Z))
  /\ (forall rc out, git_diff_staged w = ProcCompleted rc out ->
     get_staged_diff w = ([EvSubprocess git_diff_argv], Ret out)
     /\ (blank out ->
         run_hook w path src dry_run = ([EvSubprocess git_diff_argv], Ret None)
         /\ main w path src dry_run
            = ([EvSubprocess git_diff_argv], Ret 0%Z))).
Proof.
  intros Hg. split.
  - intros e He.
    assert (D := get_staged_diff_raised w e He).
    assert (R : run_hook w path src dry_run
                = ([EvSubprocess git_diff_argv; EvStderr (diff_warning e)],
                   Ret None))
      by (eapply run_hook_blank; eauto; reflexivity).
    repeat split; trivial. now apply main_of_none.
  - intros rc out Hc.
    assert (D := get_staged_diff_completed w rc out Hc).
    split; [exact D|].
    intros Hb.
    assert (R : run_hook w path src dry_run
                = ([EvSubprocess git_diff_argv], Ret None))
      by (eapply run_hook_blank; eauto).
    split; [exact R|now apply main_of_none].
Qed.

Lemma diff_failure_is_recovered_witness :
  git_diff_staged no_git_world = ProcRaised git_missing
  /\ main no_git_world sample_path None false
     = ([EvSubprocess git_diff_argv; EvStderr (diff_warning git_missing)],
        Ret 0%Z).
Proof.
  split; [reflexivity|].
  apply (@diff_failure_is_recovered no_git_world sample_path None false
           eq_refl).
  reflexivity.
Defined.

(** C3, as stated, fails for a non-zero exit status: when the diff command
    exits with 1 and no output, the collector returns the empty text but
    writes no warning. *)
Lemma nonzero_exit_gives_no_warning :
  git_diff_staged failed_diff_world = ProcCompleted 1 []
  /\ snd (get_staged_diff failed_diff_world) = Ret []
  /\ diagnostics (fst (get_staged_diff failed_diff_world)) = []
  /\ diagnostics (fst (main failed_diff_world sample_path None false)) = [].
Proof. repeat split. Qed.

(** C7.  When the first remote call raises an error whose text has none
    of the transient markers, [run_hook] raises a [RuntimeError] right
    there: one remote call, no warning, no sleep, and [main] reports the
    error and exits with 2. *)
Theorem non_transient_error_aborts
    (w : World) (path : pystr) (src : option pystr) (dry_run : bool)
    (diff key : pystr) (e : exn) :
  reaches_generation w src diff key ->
  remote w diff key 1 = Raise e ->
  is_transient (str_exn e) = false ->
  run_hook w path src dry_run
  = ([EvSubprocess git_diff_argv; call diff key],
     Raise (RuntimeError (lit "Gemini API call failed: " ++ str_exn e)))
  /\ main w path src dry_run
     = ([EvSubprocess git_diff_argv; call diff key;
         EvStderr (lit "ERROR: Gemini API call failed: " ++ str_exn e)],
        Ret 2%Z)
  /\ length (network_calls (fst (main w path src dry_run))) = 1
  /\ sleeps (fst (main w path src dry_run)) = []
  /\ writes (fst (main w path src dry_run)) = [].
Proof.
  intros Hr He Ht.
  assert (R : run_hook w path src dry_run
              = ([EvSubprocess git_diff_argv; call diff key],
                 Raise (RuntimeError
                          (lit "Gemini API call failed: " ++ str_exn e)))).
  { rewrite (run_hook_generation w path dry_run src diff key Hr).
    destruct Hr as (_ & _ & _ & _ & _ & Hi).
    now rewrite (@loop_first_attempt_fatal w diff key Hi e He Ht). }
  split; [exact R|].
  rewrite (main_of_runtime_error _ _ _ _ _ _ R). repeat split.
Qed.

Lemma non_transient_error_aborts_witness :
  is_transient (lit "400 invalid api key") = false
  /\ main bad_key_world sample_path None false
     = ([EvSubprocess git_diff_argv; call sample_diff sample_key;
         EvStderr (lit "ERROR: Gemini API call failed: 400 invalid api key")],
        Ret 2%Z).
Proof.
  split; [reflexivity|].
  apply (@non_transient_error_aborts bad_key_world sample_path None false
           sample_diff sample_key bad_key);
    [apply sample_reaches_generation|reflexivity|reflexivity].
Defined.

(** C6.  When all three remote calls raise errors classified as
    transient, [run_hook] does not raise: after two backoff sleeps and the
    third failure it writes the warning that generation is skipped and
    returns [None]; nothing is printed to standard output or written to the
    file, and [main] exits with 0. *)
Theorem transient_exhaustion_degrades
    (w : World) (path : pystr) (src : option pystr) (dry_run : bool)
    (diff key : pystr) (e1 e2 e3 : exn) :
  reaches_generation w src diff key ->
  remote w diff key 1 = Raise e1 -> is_transient (str_exn e1) = true ->
  remote w diff key 2 = Raise e2 -> is_transient (str_exn e2) = true ->
  remote w diff key 3 = Raise e3 -> is_transient (str_exn e3) = true ->
  run_hook w path src dry_run = (three_failures diff key e1 e2 e3, Ret None)
  /\ main w path src dry_run = (three_failures diff key e1 e2 e3, Ret 0%Z)
  /\ last (diagnostics (fst (main w path src dry_run))) []
     = warn_exhausted 3 e3
  /\ length (network_calls (fst (main w path src dry_run))) = 3
  /\ sleeps (fst (main w path src dry_run)) = [1; 2]%Z
  /\ printed (fst (main w path src dry_run)) = []
  /\ writes (fst (main w path src dry_run)) = [].
Proof.
  intros Hr H1 T1 H2 T2 H3 T3.
  assert (R : run_hook w path src dry_run
              = (three_failures diff key e1 e2 e3, Ret None)).
  { rewrite (run_hook_generation w path dry_run src diff key Hr).
    destruct Hr as (_ & _ & _ & _ & _ & Hi).
    now rewrite (@loop_exhausted w diff key Hi e1 e2 e3 H1 T1 H2 T2 H3 T3). }
  split; [exact R|].
  rewrite (main_of_none _ _ _ _ _ R). repeat split.
Qed.

Lemma transient_exhaustion_degrades_witness :
  is_transient (str_exn server_busy) = true
  /\ main busy_world sample_path None false
     = (three_failures sample_diff sample_key
          server_busy server_busy server_busy, Ret 0%Z).
Proof.
  split; [reflexivity|].
  apply (@transient_exhaustion_degrades busy_world sample_path None false
           sample_diff sample_key server_busy server_busy server_busy);
    solve [apply sample_reaches_generation | reflexivity].
Defined.

Lemma sleeps_two_retries diff key e1 e2 tail :
  sleeps (two_retries diff key e1 e2 ++ tail) = ([1; 2]%Z ++ sleeps tail).
Proof. reflexivity. Qed.

(** C5, as the hook delivers: the output is built from the sanitized text,
    it is not that text.  When the first two remote calls raise errors whose
    text contains "503" and the third returns a response whose text
    sanitizes to a non-empty string (and, outside a dry run, the file can be
    opened), the run makes three calls with exactly two sleeps between
    them, of 1 and then 2 seconds, and its output is the message
    [format_message] builds from the sanitized text of the third response:
    returned and printed in a dry run, written with a final newline
    otherwise.  That message is the sanitized text itself when the text is
    a single line of at most 50 characters. *)
Theorem retry_twice_then_deliver
    (w : World) (path : pystr) (src : option pystr) (dry_run : bool)
    (diff key : pystr) (e1 e2 : exn) (resp : pyval) (raw : pystr) :
  reaches_generation w src diff key ->
  remote w diff key 1 = Raise e1 ->
  PyStr.contains (lit "503") (str_exn e1) = true ->
  remote w diff key 2 = Raise e2 ->
  PyStr.contains (lit "503") (str_exn e2) = true ->
  remote w diff key 3 = Ret resp ->
  extract_text_from_response w resp = VStr raw ->
  sanitize_generated_text raw <> [] ->
  (dry_run = false -> open_for_write w path = None) ->
  exists final,
    format_message (sanitize_generated_text raw) = Some final
    /\ (single_line (sanitize_generated_text raw) ->
        length (sanitize_generated_text raw) <= MAX_SUBJECT_LENGTH ->
        final = sanitize_generated_text raw)
    /\ run_hook w path src dry_run
       = (two_retries diff key e1 e2
            ++ (if dry_run then [] else [EvWrite path (final ++ [newline])]),
          Ret (Some final))
    /\ main w path src dry_run
       = (two_retries diff key e1 e2
            ++ (if dry_run then [EvStdout final]
                else [EvWrite path (final ++ [newline])]),
          Ret 0%Z)
    /\ sleeps (fst (main w path src dry_run)) = [1; 2]%Z
    /\ length (network_calls (fst (main w path src dry_run))) = 3.
Proof.
  intros Hr H1 T1 H2 T2 H3 Hx Hne Hopen.
  apply transient_503 in T1, T2.
  destruct (format_message_nonempty _ (sanitize_stripped raw) Hne)
    as [c [msg Hf]].
  exists (c :: msg).
  assert (R : run_hook w path src dry_run
              = (two_retries diff key e1 e2
                   ++ (if dry_run then []
                       else [EvWrite path ((c :: msg) ++ [newline])]),
                 Ret (Some (c :: msg)))).
  { rewrite (run_hook_generation w path dry_run src diff key Hr).
    destruct Hr as (_ & _ & _ & _ & _ & Hi).
    rewrite (loop_success_on_third w diff key Hi e1 e2 resp H1 T1 H2 T2 H3).
    unfold bind, emit.
    rewrite (deliver_text w path dry_run resp raw (c :: msg) Hx Hne Hf).
    destruct dry_run; [reflexivity|].
    now rewrite (Hopen eq_refl). }
  assert (Hm : main w path src dry_run
               = (two_retries diff key e1 e2
                    ++ (if dry_run then [EvStdout (c :: msg)]
                        else [EvWrite path ((c :: msg) ++ [newline])]),
                  Ret 0%Z)).
  { rewrite (main_of_message _ _ _ _ _ _ _ R), <- app_assoc.
    now destruct dry_run. }
  split; [exact Hf|]. split.
  - intros Hl Hlen.
    rewrite (format_message_single_line _ (sanitize_stripped raw) Hne Hl Hlen)
      in Hf.
    now injection Hf.
  - split; [exact R|]. split; [exact Hm|].
    rewrite Hm. cbn [fst]. split.
    + rewrite sleeps_two_retries. now destruct dry_run.
    + now destruct dry_run.
Qed.

Lemma retry_twice_then_deliver_witness :
  PyStr.contains (lit "503") (str_exn server_busy) = true
  /\ exists final,
       format_message (sanitize_generated_text (lit "feat: add hello print"))
       = Some final
       /\ final = lit "feat: add hello print"
       /\ sleeps (fst (main (flaky_world (lit "feat: add hello print"))
                            sample_path None true)) = [1; 2]%Z.
Proof.
  split; [reflexivity|].
  destruct (retry_twice_then_deliver
              (flaky_world (lit "feat: add hello print"))
              sample_path None true sample_diff sample_key
              server_busy server_busy
              (text_response (lit "feat: add hello print"))
              (lit "feat: add hello print")
              (sample_reaches_generation _)
              eq_refl eq_refl eq_refl eq_refl eq_refl eq_refl)
    as [final (Hf & Hsame & _ & _ & Hs & _)].
  - discriminate.
  - discriminate.
  - exists final. split; [exact Hf|]. split; [|exact Hs].
    apply Hsame; [reflexivity|]. vm_compute. lia.
Defined.

(** C5, as stated, fails on a reply of two lines: the sanitized text of
    the third attempt is "fix: a", a newline and "b", and the output puts a
    blank line between the two. *)
Lemma output_is_not_the_sanitized_text :
  remote (flaky_world two_line_text) sample_diff sample_key 1 = Raise server_busy
  /\ remote (flaky_world two_line_text) sample_diff sample_key 2 = Raise server_busy
  /\ remote (flaky_world two_line_text) sample_diff sample_key 3
     = Ret (text_response two_line_text)
  /\ sanitize_generated_text two_line_text = two_line_text
  /\ snd (run_hook (flaky_world two_line_text) sample_path None true)
     = Ret (Some (lit "fix: a" ++ [newline; newline] ++ lit "b"))
  /\ printed (fst (main (flaky_world two_line_text) sample_path None true))
     = [lit "fix: a" ++ [newline; newline] ++ lit "b"]
  /\ lit "fix: a" ++ [newline; newline] ++ lit "b" <> two_line_text.
Proof.
  repeat split; try reflexivity.
  vm_compute. discriminate.
Qed.

(** [run_hook] raises a [ValueError] for a missing credential and, unless
    opening the file raises one, for nothing else. *)
Lemma run_hook_value_error w path src dry_run t msg :
  run_hook w path src dry_run = (t, Raise (ValueError msg)) ->
  dry_run = true \/ (forall m, open_for_write w path <> Some (ValueError m)) ->
  is_user_message_source src = false /\ credential_missing w.
Proof.
  intros H Hopen. unfold run_hook in H.
  destruct (is_user_message_source src); [discriminate|].
  split; [reflexivity|].
  destruct (get_staged_diff_returns w) as [td [diff D]].
  rewrite D in H. unfold bind at 1 in H.
  destruct (PyStr.is_empty (PyStr.strip diff)); [discriminate|].
  unfold read_api_key in H. unfold credential_missing.
  destruct (env_GEMINI_API_KEY w) as [[|c key]|]; auto.
  exfalso. unfold bind at 1 in H.
  destruct (retry_loop w (build_prompt diff) (c :: key) max_attempts
              (py_range 1 (max_attempts + 1))) as [tl [out|e]] eqn:L.
  - cbv beta iota delta [bind ret] in H. rewrite L in H.
    destruct out as [resp|]; [|discriminate].
    destruct (deliver w path dry_run resp) as [tv [r|e]] eqn:V;
      [discriminate|].
    injection H as _ ->.
    apply deliver_value_error in V as [Hdry Hv].
    destruct Hopen as [Hopen|Hopen]; [congruence|].
    now apply (Hopen msg).
  - cbv beta iota delta [bind ret] in H. rewrite L in H.
    apply retry_loop_raises_runtime_error in L as [m ->].
    discriminate.
Qed.

Lemma main_exit_0_iff w path src dry_run :
  snd (main w path src dry_run) = Ret 0%Z
  <-> exists r, snd (run_hook w path src dry_run) = Ret r.
Proof.
  rewrite main_status.
  destruct (snd (run_hook w path src dry_run)) as [r|[m|m|cls m]];
    split; try discriminate; eauto; intros [r H]; discriminate.
Qed.

Lemma main_exit_1_iff w path src dry_run :
  snd (main w path src dry_run) = Ret 1%Z
  <-> exists msg, snd (run_hook w path src dry_run) = Raise (ValueError msg).
Proof.
  rewrite main_status.
  destruct (snd (run_hook w path src dry_run)) as [r|[m|m|cls m]];
    split; try discriminate; eauto; intros [r' H]; discriminate.
Qed.

Lemma main_exit_2_iff w path src dry_run :
  snd (main w path src dry_run) = Ret 2%Z
  <-> exists msg, snd (run_hook w path src dry_run) = Raise (RuntimeError msg).
Proof.
  rewrite main_status.
  destruct (snd (run_hook w path src dry_run)) as [r|[m|m|cls m]];
    split; try discriminate; eauto; intros [r' H]; discriminate.
Qed.

Lemma main_raise_iff w path src dry_run e :
  snd (main w path src dry_run) = Raise e
  <-> snd (run_hook w path src dry_run) = Raise e
      /\ (forall m, e <> ValueError m) /\ (forall m, e <> RuntimeError m).
Proof.
  rewrite main_status.
  destruct (snd (run_hook w path src dry_run)) as [r|[m|m|cls m]]; split.
  all: try solve [intros H; discriminate H].
  all: try solve [intros [H _]; discriminate H].
  all: try solve [intros [H [Hv Hr]]; injection H as <-;
                  (now destruct (Hv m)) || (now destruct (Hr m))].
  - intros H. injection H as <-. repeat split; discriminate.
  - intros [H _]. injection H as <-. reflexivity.
Qed.

Lemma sanitize_value_not_str v :
  truthy v = true -> (forall s, v <> VStr s) ->
  exists cls msg,
    sanitize_generated_value v = ([], Raise (OtherException cls msg)).
Proof.
  intros Ht Hs. unfold sanitize_generated_value.
  destruct v as [|s|n|l|d|attrs].
  - discriminate.
  - now destruct (Hs s).
  - rewrite Ht. eexists _, _. reflexivity.
  - rewrite Ht. eexists _, _. reflexivity.
  - rewrite Ht. eexists _, _. reflexivity.
  - rewrite Ht. eexists _, _. reflexivity.
Qed.

(** C8, as [main] maps outcomes: it catches the two classes [ValueError]
    and [RuntimeError] and nothing else.  The exit status is 0 exactly
    when [run_hook] returns, as it does for a skipped source and for a
    blank diff; 1 exactly when [run_hook] raises a [ValueError], as it does
    for a missing credential (and, when the run is a dry run or opening the
    file raises no [ValueError], only then); 2 exactly when [run_hook]
    raises a [RuntimeError], as it does when the remote call fails with an
    error that is not transient and when the response sanitizes to the
    empty text.  An exception of any other class goes through [main],
    which then returns no status: this is what happens when opening the
    file raises such an exception and when the extracted value is truthy
    and not a str. *)
Theorem exit_status_by_outcome
    (w : World) (path : pystr) (src : option pystr) (dry_run : bool) :
  (snd (main w path src dry_run) = Ret 0%Z
   <-> exists r, snd (run_hook w path src dry_run) = Ret r)
  /\ (is_user_message_source src = true ->
      main w path src dry_run = ([], Ret 0%Z))
  /\ (forall t diff,
        is_user_message_source src = false ->
        get_staged_diff w = (t, Ret diff) -> blank diff ->
        main w path src dry_run = (t, Ret 0%Z))
  /\ (snd (main w path src dry_run) = Ret 1%Z
      <-> exists msg, snd (run_hook w path src dry_run) = Raise (ValueError msg))
  /\ (forall t diff,
        is_user_message_source src = false ->
        get_staged_diff w = (t, Ret diff) -> ~ blank diff ->
        credential_missing w ->
        snd (main w path src dry_run) = Ret 1%Z)
  /\ (dry_run = true \/ (forall m, open_for_write w path <> Some (ValueError m)) ->
      snd (main w path src dry_run) = Ret 1%Z ->
      is_user_message_source src = false /\ credential_missing w)
  /\ (snd (main w path src dry_run) = Ret 2%Z
      <-> exists msg, snd (run_hook w path src dry_run) = Raise (RuntimeError msg))
  /\ (forall diff key e,
        reaches_generation w src diff key ->
        remote w diff key 1 = Raise e ->
        is_transient (str_exn e) = false ->
        snd (main w path src dry_run) = Ret 2%Z)
  /\ (forall diff key t resp,
        reaches_generation w src diff key ->
        retry_loop w (build_prompt diff) key 3 [1; 2; 3]%Z
        = (t, Ret (LoopResponse resp)) ->
        sanitize_generated_value (extract_text_from_response w resp) = ret [] ->
        snd (main w path src dry_run) = Ret 2%Z)
  /\ (forall e,
        snd (main w path src dry_run) = Raise e
        <-> snd (run_hook w path src dry_run) = Raise e
            /\ (forall m, e <> ValueError m)
            /\ (forall m, e <> RuntimeError m))
  /\ (forall diff key t resp raw e,
        reaches_generation w src diff key ->
        retry_loop w (build_prompt diff) key 3 [1; 2; 3]%Z
        = (t, Ret (LoopResponse resp)) ->
        extract_text_from_response w resp = VStr raw ->
        sanitize_generated_text raw <> [] ->
        dry_run = false ->
        open_for_write w path = Some e ->
        snd (main w path src dry_run)
        = match e with
          | ValueError _ => Ret 1%Z
          | RuntimeError _ => Ret 2%Z
          | OtherException _ _ => Raise e
          end)
  /\ (forall diff key t resp,
        reaches_generation w src diff key ->
        retry_loop w (build_prompt diff) key 3 [1; 2; 3]%Z
        = (t, Ret (LoopResponse resp)) ->
        truthy (extract_text_from_response w resp) = true ->
        (forall s, extract_text_from_response w resp <> VStr s) ->
        exists cls msg,
          snd (main w path src dry_run) = Raise (OtherException cls msg)).
Proof.
  assert (S := main_status w path src dry_run).
  split; [apply main_exit_0_iff|].
  split.
  { intros Hg. apply main_of_none. now apply run_hook_skipped. }
  split.
  { intros t diff Hg Hd Hb. apply main_of_none.
    now apply (run_hook_blank w path dry_run src t diff). }
  split; [apply main_exit_1_iff|].
  split.
  { intros t diff Hg Hd Hb Hk. rewrite S.
    now rewrite (run_hook_missing_key w path dry_run src t diff Hg Hd Hb Hk). }
  split.
  { intros Hopen H1. rewrite S in H1.
    destruct (run_hook w path src dry_run) as [t [r|[m|m|cls m]]] eqn:R;
      try discriminate.
    now apply (run_hook_value_error w path src dry_run t m). }
  split; [apply main_exit_2_iff|].
  split.
  { intros diff key e Hr He Ht. rewrite S.
    rewrite (run_hook_generation w path dry_run src diff key Hr).
    destruct Hr as (_ & _ & _ & _ & _ & Hi).
    now rewrite (loop_first_attempt_fatal w diff key Hi e He Ht). }
  split.
  { intros diff key t resp Hr Hl He. rewrite S.
    rewrite (run_hook_generation w path dry_run src diff key Hr).
    rewrite Hl. unfold bind, emit, ret.
    now rewrite (deliver_empty w path dry_run resp He). }
  split; [intros e; apply main_raise_iff|].
  split.
  { intros diff key t resp raw e Hr Hl Hx Hne Hdry Ho. rewrite S.
    rewrite (run_hook_generation w path dry_run src diff key Hr).
    rewrite Hl. unfold bind, emit, ret.
    destruct (format_message_nonempty _ (sanitize_stripped raw) Hne)
      as [c [msg Hf]].
    rewrite (deliver_text w path dry_run resp raw (c :: msg) Hx Hne Hf).
    rewrite Hdry, Ho. now destruct e. }
  intros diff key t resp Hr Hl Ht Hs. rewrite S.
  rewrite (run_hook_generation w path dry_run src diff key Hr).
  rewrite Hl. unfold bind, emit, ret. unfold deliver.
  destruct (sanitize_value_not_str _ Ht Hs) as [cls [msg ->]].
  cbn. eauto.
Qed.

Lemma exit_status_by_outcome_witness :
  snd (main no_key_world sample_path (Some (lit "message")) false) = Ret 0%Z
  /\ snd (main failed_diff_world sample_path None false) = Ret 0%Z
  /\ snd (main no_key_world sample_path None false) = Ret 1%Z
  /\ snd (main bad_key_world sample_path None false) = Ret 2%Z
  /\ snd (main empty_reply_world sample_path None false) = Ret 2%Z
  /\ snd (main readonly_world sample_path None false) = Raise permission_denied
  /\ exists cls msg,
       snd (main numeric_reply_world sample_path None false)
       = Raise (OtherException cls msg).
Proof.
  split.
  { destruct (exit_status_by_outcome
                no_key_world sample_path (Some (lit "message")) false)
      as (_ & H & _).
    now rewrite (H eq_refl). }
  split.
  { destruct (exit_status_by_outcome failed_diff_world sample_path None false)
      as (_ & _ & H & _).
    now rewrite (H [EvSubprocess git_diff_argv] [] eq_refl eq_refl eq_refl). }
  split.
  { destruct (exit_status_by_outcome no_key_world sample_path None false)
      as (_ & _ & _ & _ & H & _).
    apply (H [EvSubprocess git_diff_argv] sample_diff); trivial.
    - discriminate.
    - now left. }
  split.
  { destruct (exit_status_by_outcome bad_key_world sample_path None false)
      as (_ & _ & _ & _ & _ & _ & _ & H & _).
    apply (H sample_diff sample_key bad_key); trivial.
    apply sample_reaches_generation. }
  split.
  { destruct (exit_status_by_outcome empty_reply_world sample_path None false)
      as (_ & _ & _ & _ & _ & _ & _ & _ & H & _).
    apply (H sample_diff sample_key [call sample_diff sample_key]
             (text_response (fence ++ fence))); trivial.
    apply sample_reaches_generation. }
  split.
  { destruct (exit_status_by_outcome readonly_world sample_path None false)
      as (_ & _ & _ & _ & _ & _ & _ & _ & _ & _ & H & _).
    apply (H sample_diff sample_key [call sample_diff sample_key]
             (text_response (lit "feat: add hello print"))
             (lit "feat: add hello print") permission_denied);
      try reflexivity; try discriminate.
    repeat split; trivial; try discriminate. now exists 0%Z. }
  destruct (exit_status_by_outcome numeric_reply_world sample_path None false)
    as (_ & _ & _ & _ & _ & _ & _ & _ & _ & _ & _ & H).
  apply (H sample_diff sample_key [call sample_diff sample_key] numeric_reply);
    try reflexivity; try discriminate.
  apply sample_reaches_generation.
Defined.

(** C8, as stated, fails when opening the commit-message file raises: the
    run has a diff, a credential and a usable reply, the error is neither a
    missing credential nor a success, and [main] returns no status, 2 or
    other: the exception goes through it. *)
Lemma open_failure_is_not_exit_2 :
  reaches_generation readonly_world None sample_diff sample_key
  /\ remote readonly_world sample_diff sample_key 1
     = Ret (text_response (lit "feat: add hello print"))
  /\ open_for_write readonly_world sample_path = Some permission_denied
  /\ snd (main readonly_world sample_path None false)
     = Raise permission_denied
  /\ snd (main readonly_world sample_path None false) <> Ret 2%Z
  /\ writes (fst (main readonly_world sample_path None false)) = [].
Proof.
  split.
  { unfold reaches_generation. repeat split; trivial; try discriminate.
    now exists 0%Z. }
  repeat split. discriminate.
Qed.

(** ** The scenarios of the specification, evaluated *)

(** Text wrapped in triple fences is unwrapped. *)
Example sanitize_fenced :
  sanitize_generated_text (fence ++ lit "feat: x" ++ fence) = lit "feat: x".
Proof. reflexivity. Qed.

(** A dry run on a staged diff prints the generated message and writes
    nothing. *)
Example dry_run_prints_message :
  main (world_of (Some sample_key) (ProcCompleted 0 sample_diff) good_reply)
       sample_path None true
  = ([EvSubprocess git_diff_argv; call sample_diff sample_key;
      EvStdout (lit "feat: add hello print")], Ret 0%Z).
Proof. reflexivity. Qed.

(** Without the SDK the run fails before anything is sent. *)
Example missing_sdk_is_fatal :
  main {| env_GEMINI_API_KEY := Some sample_key;
          git_diff_staged := ProcCompleted 0 sample_diff;
          genai_installed := false;
          generate_content := fun _ _ _ => good_reply;
          str_of_object := fun _ => None;
          open_for_write := fun _ => None |}
       sample_path None false
  = ([EvSubprocess git_diff_argv;
      EvStderr (lit "ERROR: Gemini API call failed: Could not import google.genai. Install it with: pip install google-genai")],
     Ret 2%Z).
Proof. reflexivity. Qed.

(** The shapes of response the extraction knows. *)
Example extract_candidate_parts :
  extract_text_from_response no_key_world
    (VObj [(lit "candidates",
            VList [VObj [(lit "content",
                          VList [VDict [(lit "text", VStr (lit "fix: y"))]])]])])
  = VStr (lit "fix: y").
Proof. reflexivity. Qed.

Example extract_result_container :
  extract_text_from_response no_key_world
    (VObj [(lit "result", VDict [(lit "content", VStr (lit "docs: z"))])])
  = VStr (lit "docs: z").
Proof. reflexivity. Qed.

(** * Further properties of the hook *)

(** ** Arguments and prompt *)

(** [get_hook_args] fails exactly when there are fewer than two
    arguments; otherwise it returns the second one as the path and the third
    one, if there is one, as the source, and ignores whatever follows. *)
Theorem get_hook_args_by_length (sys_argv : list pystr)
    (argv : option (list pystr)) :
  let args := match argv with None => sys_argv | Some a => a end in
  (length args < 2 <->
   exists msg, get_hook_args sys_argv argv = Raise (ValueError msg))
  /\ (2 <= length args ->
      get_hook_args sys_argv argv = Ret (nth 1 args [], nth_error args 2))
  /\ (forall prog path src rest rest',
        args = prog :: path :: src :: rest ->
        get_hook_args sys_argv argv
        = get_hook_args sys_argv (Some (prog :: path :: src :: rest'))).
Proof.
  unfold get_hook_args. destruct argv as [a|]; cbv zeta;
    [set (args := a)|set (args := sys_argv)]; clearbody args.
  all: split; [|split].
  all: try (destruct args as [|prog [|path [|src rest]]]; simpl;
            split; try lia; eauto; intros [msg H]; discriminate).
  all: try (destruct args as [|prog [|path [|src rest]]]; simpl;
            intros H; try lia; reflexivity).
  all: intros prog path src rest rest' ->; reflexivity.
Qed.

Lemma format_literal a rest diff :
  forallb (fun c => negb (Ascii.eqb c lbrace || Ascii.eqb c rbrace)) a = true ->
  format_from None (a ++ rest) diff
  = option_map (app a) (format_from None rest diff).
Proof.
  induction a as [|c a IH]; intros H.
  - simpl. now destruct (format_from None rest diff).
  - simpl in H. apply andb_prop in H as [Hc Ha].
    apply negb_true_iff, orb_false_elim in Hc as [Hl Hr].
    simpl. rewrite Hl, Hr, (IH Ha).
    now destruct (format_from None rest diff).
Qed.

Lemma stripped_template :
  PyStr.strip prompt_template = prompt_instructions ++ lit "{diff}".
Proof. vm_compute. reflexivity. Qed.

Lemma instructions_have_no_brace :
  forallb (fun c => negb (Ascii.eqb c lbrace || Ascii.eqb c rbrace))
          prompt_instructions = true.
Proof. vm_compute. reflexivity. Qed.

(** The source builds the prompt by stripping the template and formatting
    it with the diff.  For every diff this succeeds and gives the
    instructions followed by the diff exactly as it is: braces in the diff
    are not read as fields, whitespace at the ends of the diff is kept (the
    strip comes before the substitution), and two diffs that differ give
    two prompts that differ. *)
Theorem build_prompt_from_template (diff diff' : pystr) :
  build_prompt_source diff = Some (build_prompt diff)
  /\ build_prompt_source diff = Some (prompt_instructions ++ diff)
  /\ (build_prompt_source diff = build_prompt_source diff' <-> diff = diff').
Proof.
  assert (E : forall d, build_prompt_source d = Some (prompt_instructions ++ d)).
  { intros d. unfold build_prompt_source, py_format.
    rewrite stripped_template.
    rewrite (format_literal _ _ _ instructions_have_no_brace).
    change (format_from None (lit "{diff}") d) with (Some (d ++ [])).
    now rewrite app_nil_r. }
  split; [apply E|]. split; [apply E|].
  rewrite !E. split.
  - intros H.
    assert (H' : prompt_instructions ++ diff = prompt_instructions ++ diff')
      by congruence.
    now apply app_inv_head in H'.
  - now intros ->.
Qed.

Lemma get_hook_args_by_length_witness :
  get_hook_args [] (Some [lit "hook"; sample_path; lit "message"; lit "HEAD"])
  = Ret (sample_path, Some (lit "message"))
  /\ exists msg, get_hook_args [lit "hook"] None = Raise (ValueError msg).
Proof.
  split.
  - apply (get_hook_args_by_length []
             (Some [lit "hook"; sample_path; lit "message"; lit "HEAD"])).
    simpl. lia.
  - apply (get_hook_args_by_length [lit "hook"] None). simpl. lia.
Defined.

(** ** Extraction of the text from a response *)

(** A response with a [text] attribute holding a str, and with no
    [candidates] attribute or a falsy one, yields that str, whatever other
    attributes it has. *)
Theorem extract_text_attribute (w : World) (attrs : list (pystr * pyval))
    (s : pystr) :
  (lookup (lit "candidates") attrs = None
   \/ exists c, lookup (lit "candidates") attrs = Some c /\ truthy c = false) ->
  lookup (lit "text") attrs = Some (VStr s) ->
  extract_text_from_response w (VObj attrs) = VStr s.
Proof.
  intros Hc Ht. unfold extract_text_from_response, extract_try.
  cbn [getattr]. rewrite Ht.
  destruct Hc as [Hc|[c [Hc Hf]]]; rewrite Hc; [|rewrite Hf]; reflexivity.
Qed.

Lemma extract_text_attribute_witness :
  extract_text_from_response no_key_world
    (VObj [(lit "candidates", VList []); (lit "text", VStr (lit "feat: x"))])
  = VStr (lit "feat: x").
Proof.
  apply extract_text_attribute; [|reflexivity].
  right. exists (VList []). split; reflexivity.
Defined.

(** The parts of the first candidate come first: when [candidates] is a
    list whose first element has a [content] list whose first element is a
    dict with a ["text"] key, the value under that key is returned,
    whatever the [text], [output] and [result] attributes of the response
    hold. *)
Theorem extract_prefers_candidate_parts (w : World)
    (attrs c0 : list (pystr * pyval)) (others parts : list pyval)
    (d : list (pystr * pyval)) (v : pyval) :
  lookup (lit "candidates") attrs = Some (VList (VObj c0 :: others)) ->
  lookup (lit "content") c0 = Some (VList (VDict d :: parts)) ->
  lookup (lit "text") d = Some v ->
  extract_text_from_response w (VObj attrs) = v.
Proof.
  intros Hc Hcontent Ht.
  unfold extract_text_from_response, extract_try. cbn [getattr].
  rewrite Hc. cbn [truthy index0]. unfold from_candidate. cbn [getattr].
  rewrite Hcontent. cbn [text_of_first]. rewrite Ht. reflexivity.
Qed.

Lemma extract_prefers_candidate_parts_witness :
  extract_text_from_response no_key_world
    (candidate_reply (lit "fix: y") (lit "feat: x"))
  = VStr (lit "fix: y").
Proof.
  apply (extract_prefers_candidate_parts no_key_world _
           [(lit "content", VList [VDict [(lit "text", VStr (lit "fix: y"))]])]
           [] [] [(lit "text", VStr (lit "fix: y"))]);
    reflexivity.
Defined.

(** A [candidates] attribute that is truthy but cannot be subscripted
    makes the whole extraction fall back on [str(resp)]: the [text],
    [output] and [result] attributes are not looked at. *)
Theorem extract_bad_candidates_falls_back (w : World)
    (attrs : list (pystr * pyval)) (c : pyval) :
  lookup (lit "candidates") attrs = Some c ->
  truthy c = true ->
  index0 c = None ->
  extract_text_from_response w (VObj attrs) = last_resort w (VObj attrs).
Proof.
  intros Hc Ht Hi. unfold extract_text_from_response, extract_try.
  cbn [getattr]. rewrite Hc, Ht, Hi. reflexivity.
Qed.

Lemma extract_bad_candidates_falls_back_witness :
  extract_text_from_response no_key_world (odd_reply (lit "feat: x"))
  = VStr [].
Proof.
  apply (extract_bad_candidates_falls_back no_key_world _ (VInt 1));
    reflexivity.
Defined.

(** A response that is not an object, or an object with none of the
    attributes [candidates], [text], [output] and [result], is turned into
    a string with [str]: a str is returned as it is, and the empty string
    stands in when [str] raises. *)
Theorem extract_last_resort (w : World) (resp : pyval) :
  (forall attrs, resp = VObj attrs ->
     lookup (lit "candidates") attrs = None
     /\ lookup (lit "text") attrs = None
     /\ lookup (lit "output") attrs = None
     /\ lookup (lit "result") attrs = None) ->
  extract_text_from_response w resp = last_resort w resp
  /\ (forall s, resp = VStr s -> extract_text_from_response w resp = VStr s).
Proof.
  intros H.
  assert (E : extract_text_from_response w resp = last_resort w resp).
  { destruct resp as [|s|n|l|d|attrs]; try reflexivity.
    destruct (H attrs eq_refl) as (Hc & Ht & Ho & Hr).
    unfold extract_text_from_response, extract_try. cbn [getattr].
    now rewrite Hc, Ht, Ho, Hr. }
  split; [exact E|]. intros s ->. reflexivity.
Qed.

Lemma extract_last_resort_witness :
  extract_text_from_response no_key_world (VStr (lit "docs: z"))
  = VStr (lit "docs: z").
Proof.
  apply (extract_last_resort no_key_world (VStr (lit "docs: z")));
    [discriminate|reflexivity].
Defined.

(** ** More on the sanitizer *)

Section Parts.
Import PyStr PyStrFacts.

Lemma infix_refl s : infix s s.
Proof. exists [], []. now rewrite app_nil_r. Qed.

Lemma infix_trans a b c : infix a b -> infix b c -> infix a c.
Proof.
  intros [x [y ->]] [x' [y' ->]]. exists (x' ++ x), (y ++ y').
  now rewrite <- !app_assoc.
Qed.

Lemma infix_length a b : infix a b -> length a <= length b.
Proof. intros [x [y ->]]. rewrite !length_app. lia. Qed.

Lemma infix_strip s : infix (strip s) s.
Proof.
  unfold strip.
  destruct (lstrip_decomp s) as [ws [E _]].
  destruct (rstrip_decomp (lstrip s)) as [ws' [E' _]].
  exists ws, ws'. rewrite <- E'. exact E.
Qed.

Lemma infix_slice a b s : infix (slice a b s) s.
Proof.
  unfold slice. exists (firstn a s), (skipn (length s - b - a) (skipn a s)).
  now rewrite firstn_skipn, firstn_skipn.
Qed.

Lemma infix_unwrap (c : bool) a b t :
  infix (if c then strip (slice a b t) else t) t.
Proof.
  destruct c; [|apply infix_refl].
  eapply infix_trans; [apply infix_strip|apply infix_slice].
Qed.

Lemma sanitize_infix s : infix (sanitize_generated_text s) s.
Proof.
  destruct s as [|c s]; [apply infix_refl|].
  unfold sanitize_generated_text. cbv zeta.
  eapply infix_trans; [apply infix_unwrap|].
  eapply infix_trans; [apply infix_unwrap|].
  eapply infix_trans; [apply infix_unwrap|].
  apply infix_strip.
Qed.

Lemma sanitize_blank s : strip s = [] -> sanitize_generated_text s = [].
Proof.
  intros H. destruct s as [|c s]; [reflexivity|].
  unfold sanitize_generated_text. cbv zeta. now rewrite H.
Qed.

Lemma rstrip_ends_nonspace y d ws :
  isspace d = false -> forallb isspace ws = true ->
  rstrip (y ++ d :: ws) = y ++ [d].
Proof.
  intros Hd Hws. unfold rstrip.
  rewrite rev_app_distr. simpl rev. rewrite <- app_assoc. simpl app.
  rewrite lstrip_app_nonspace by exact Hd.
  rewrite lstrip_all_space.
  - simpl. rewrite rev_involutive. reflexivity.
  - rewrite forallb_forall in *. intros x Hx. apply Hws. now apply in_rev.
Qed.

(** Whitespace around a text that begins and ends with other characters
    is all that [strip] removes. *)
Lemma strip_surrounded ws c y d ws' :
  forallb isspace ws = true -> forallb isspace ws' = true ->
  isspace c = false -> isspace d = false ->
  strip (ws ++ (c :: y ++ [d]) ++ ws') = c :: y ++ [d].
Proof.
  intros Hws Hws' Hc Hd. unfold strip.
  simpl app. rewrite lstrip_app_nonspace by exact Hc.
  rewrite (lstrip_all_space _ Hws). simpl app.
  rewrite <- app_assoc. simpl app.
  change (c :: y ++ d :: ws') with ((c :: y) ++ d :: ws').
  now rewrite rstrip_ends_nonspace.
Qed.

Lemma startswith_app p s : startswith p (p ++ s) = true.
Proof.
  induction p as [|a p IH]; simpl; trivial.
  now rewrite Ascii.eqb_refl.
Qed.

Lemma endswith_app p s : endswith p (s ++ p) = true.
Proof. unfold endswith. rewrite rev_app_distr. apply startswith_app. Qed.

Lemma slice_between (p q x : pystr) :
  slice (length p) (length q) (p ++ x ++ q) = x.
Proof.
  unfold slice. rewrite skipn_app, Nat.sub_diag, skipn_all. simpl.
  rewrite !length_app.
  replace (length p + (length x + length q) - length q - length p)
    with (length x) by lia.
  rewrite firstn_app, Nat.sub_diag, firstn_all. simpl. apply app_nil_r.
Qed.

End Parts.

(** The sanitizer only removes: its result is a run of consecutive
    characters of the input, so it is never longer than the input and holds
    no character the input does not hold; and it has no whitespace at
    either end. *)
Theorem sanitize_keeps_a_part (s : pystr) :
  infix (sanitize_generated_text s) s
  /\ length (sanitize_generated_text s) <= length s
  /\ (forall c, In c (sanitize_generated_text s) -> In c s)
  /\ PyStr.strip (sanitize_generated_text s) = sanitize_generated_text s.
Proof.
  assert (H := sanitize_infix s).
  split; [exact H|]. split; [now apply infix_length|].
  split; [|apply sanitize_stripped].
  destruct H as [x [y E]]. intros c Hc. rewrite E.
  apply in_or_app. right. apply in_or_app. now left.
Qed.

(** A text in a pair of triple fences, with any whitespace around the
    fences, sanitizes to what is between the fences, stripped, provided
    that this is not itself wrapped in backticks or quotes. *)
Theorem sanitize_unwraps_fence (ws x ws' : pystr) :
  forallb PyStr.isspace ws = true ->
  forallb PyStr.isspace ws' = true ->
  wrapped (PyStr.strip x) = false ->
  sanitize_generated_text (ws ++ (fence ++ x ++ fence) ++ ws')
  = PyStr.strip x.
Proof.
  intros Hws Hws' Hw.
  assert (Hstrip : PyStr.strip (ws ++ (fence ++ x ++ fence) ++ ws')
                   = fence ++ x ++ fence).
  { change (fence ++ x ++ fence)
      with (backtick :: ([backtick; backtick] ++ x ++ fence)).
    replace ([backtick; backtick] ++ x ++ fence)
      with (([backtick; backtick] ++ x ++ [backtick; backtick]) ++ [backtick])
      by (now rewrite <- !app_assoc).
    now apply strip_surrounded. }
  unfold wrapped in Hw.
  apply orb_false_elim in Hw as [Hw Hq'].
  apply orb_false_elim in Hw as [Hb Hq].
  unfold sanitize_generated_text.
  destruct (ws ++ (fence ++ x ++ fence) ++ ws') as [|c text] eqn:E.
  - destruct ws; discriminate.
  - cbv zeta. rewrite Hstrip.
    rewrite startswith_app.
    replace (PyStr.endswith fence (fence ++ x ++ fence)) with true
      by (symmetry; rewrite app_assoc; apply endswith_app).
    cbn [andb].
    assert (Hslice : PyStr.slice 3 3 (fence ++ x ++ fence) = x)
      by (apply (slice_between fence fence x)).
    rewrite !Hslice. now rewrite Hb, Hq, Hq'.
Qed.

Lemma sanitize_unwraps_fence_witness :
  sanitize_generated_text
    ([newline] ++ (fence ++ lit " feat: x " ++ fence) ++ [newline])
  = lit "feat: x".
Proof.
  apply (sanitize_unwraps_fence [newline] (lit " feat: x ") [newline]);
    reflexivity.
Defined.

(** ** More on the subject cap and the message *)

Section Message.
Import PyStr PyStrFacts.

Lemma prefix_refl s : prefix s s.
Proof. exists []. now rewrite app_nil_r. Qed.

Lemma prefix_trans a b c : prefix a b -> prefix b c -> prefix a c.
Proof.
  intros [x ->] [y ->]. exists (x ++ y). now rewrite app_assoc.
Qed.

Lemma prefix_take n s : prefix (take n s) s.
Proof. exists (skipn n s). symmetry. apply firstn_skipn. Qed.

Lemma prefix_rstrip s : prefix (rstrip s) s.
Proof. destruct (rstrip_decomp s) as [ws [E _]]. now exists ws. Qed.

Lemma cap_subject_prefix s : prefix (cap_subject s) s.
Proof.
  unfold cap_subject.
  destruct (MAX_SUBJECT_LENGTH <? length s); [|apply prefix_refl].
  cbv zeta.
  destruct (contains_char space (take MAX_SUBJECT_LENGTH s)) eqn:E;
    [|apply prefix_take].
  destruct (last_sep _ _ E) as [pre [word [Hcut Hword]]].
  rewrite Hcut, (join_removelast_split _ _ _ Hword).
  eapply prefix_trans; [apply prefix_rstrip|].
  eapply prefix_trans; [|apply (prefix_take MAX_SUBJECT_LENGTH)].
  rewrite Hcut. now exists (space :: word).
Qed.

Lemma cap_subject_bound s : length (cap_subject s) <= MAX_SUBJECT_LENGTH.
Proof.
  unfold cap_subject.
  destruct (MAX_SUBJECT_LENGTH <? length s) eqn:L.
  - cbv zeta.
    assert (Ht : length (take MAX_SUBJECT_LENGTH s) <= MAX_SUBJECT_LENGTH)
      by (unfold take; rewrite length_firstn; lia).
    destruct (contains_char space (take MAX_SUBJECT_LENGTH s)) eqn:E;
      [|exact Ht].
    destruct (last_sep _ _ E) as [pre [word [Hcut Hword]]].
    rewrite Hcut, (join_removelast_split _ _ _ Hword).
    rewrite Hcut, length_app in Ht.
    assert (H := length_rstrip pre). lia.
  - now apply Nat.ltb_ge in L.
Qed.

Lemma single_line_app a b :
  single_line (a ++ b) <-> single_line a /\ single_line b.
Proof.
  unfold single_line. rewrite forallb_app. apply andb_true_iff.
Qed.

Lemma single_line_infix a b : infix a b -> single_line b -> single_line a.
Proof.
  intros [x [y ->]] H.
  apply single_line_app in H as [_ H]. now apply single_line_app in H.
Qed.

Lemma single_line_prefix a b : prefix a b -> single_line b -> single_line a.
Proof. intros [y ->] H. now apply single_line_app in H. Qed.

Lemma single_line_rev s : single_line (rev s) <-> single_line s.
Proof.
  unfold single_line. rewrite !forallb_forall.
  split; intros H x Hx; apply H; [now apply in_rev in Hx|now apply in_rev].
Qed.

(** The first line [splitlines] gives has no line boundary in it. *)
Lemma splitlines_from_first cur s line more :
  single_line cur ->
  splitlines_from cur s = line :: more -> single_line line.
Proof.
  revert cur. induction s as [|c s IH]; intros cur Hcur;
    cbn [splitlines_from].
  - destruct cur as [|a cur]; [discriminate|]. intros H.
    injection H as <- _. now apply (proj2 (single_line_rev (a :: cur))).
  - destruct (is_linebreak c) eqn:E.
    + intros H. injection H as <- _. now apply (proj2 (single_line_rev _)).
    + apply IH. unfold single_line in *. simpl. now rewrite E.
Qed.

Lemma splitlines_nonempty c s : splitlines (c :: s) <> [].
Proof.
  unfold splitlines. simpl. destruct (is_linebreak c); [discriminate|].
  destruct (splitlines_from_begun [c] s) as [l [more E]]; [discriminate|].
  rewrite E. discriminate.
Qed.

Lemma splitlines_from_app_newline cur s rest :
  single_line s ->
  splitlines_from cur (s ++ newline :: rest)
  = (rev cur ++ s) :: splitlines_from [] rest.
Proof.
  unfold single_line. revert cur.
  induction s as [|c s IH]; intros cur Hs.
  - simpl app. cbn [splitlines_from].
    change (is_linebreak newline) with true. cbv iota.
    rewrite app_nil_r. now destruct rest.
  - simpl in Hs. apply andb_prop in Hs as [Hc Hs].
    apply negb_true_iff in Hc.
    simpl app. cbn [splitlines_from]. rewrite Hc, (IH _ Hs).
    simpl. now rewrite <- app_assoc.
Qed.

Lemma rstrip_after_newline b :
  b <> [] -> rstrip b = b -> rstrip (newline :: b) = newline :: b.
Proof.
  intros Hne Hb. rewrite rstrip_cons, Hb. now destruct b.
Qed.

End Message.

(** For every subject, the capped subject is a beginning of the subject
    and at most 50 characters long; a subject of at most 50 characters is
    left as it is, so capping twice changes nothing more. *)
Theorem cap_subject_bounded_prefix (subject : pystr) :
  prefix (cap_subject subject) subject
  /\ length (cap_subject subject) <= MAX_SUBJECT_LENGTH
  /\ (length subject <= MAX_SUBJECT_LENGTH -> cap_subject subject = subject)
  /\ cap_subject (cap_subject subject) = cap_subject subject.
Proof.
  split; [apply cap_subject_prefix|].
  split; [apply cap_subject_bound|].
  split; [apply cap_subject_short|].
  apply cap_subject_short, cap_subject_bound.
Qed.

(** The message is missing only for the empty text: every other text has
    a first line.  So [deliver], which raises on the empty text, never
    returns [None]: once a response is there, the run ends with a message
    or with an exception. *)
Theorem deliver_never_returns_none :
  (forall cleaned, format_message cleaned = None <-> cleaned = [])
  /\ (forall w path dry_run resp t r,
        deliver w path dry_run resp = (t, Ret r) -> exists msg, r = Some msg).
Proof.
  assert (F : forall cleaned, format_message cleaned = None <-> cleaned = []).
  { intros [|c s]; [split; reflexivity|].
    split; [|discriminate]. unfold format_message.
    destruct (PyStr.splitlines (c :: s)) eqn:E; [|discriminate].
    now apply splitlines_nonempty in E. }
  split; [exact F|].
  intros w path dry_run resp t r. unfold deliver.
  destruct (sanitize_generated_value (extract_text_from_response w resp))
    as [t0 [cleaned|e]]; [|discriminate].
  unfold bind. destruct cleaned as [|c s]; [discriminate|].
  cbn [PyStr.is_empty].
  destruct (format_message (c :: s)) as [final|] eqn:E.
  - destruct dry_run.
    + intros H. injection H as _ <-. eauto.
    + unfold write_message. destruct (open_for_write w path);
        [discriminate|]. intros H. injection H as _ <-. eauto.
  - apply F in E. discriminate.
Qed.

(** The message built from a sanitized, non-empty text begins with a
    subject of 1 to 50 characters that has no line boundary in it; what
    follows the subject is nothing, or two newlines and a body without
    trailing whitespace. *)
Theorem message_has_capped_subject (cleaned final : pystr) :
  PyStr.strip cleaned = cleaned -> cleaned <> [] ->
  format_message cleaned = Some final ->
  exists subject body,
    final = subject ++ body
    /\ 1 <= length subject <= MAX_SUBJECT_LENGTH
    /\ single_line subject
    /\ (body = []
        \/ exists rest, body = newline :: newline :: rest
                        /\ rest <> [] /\ PyStr.rstrip rest = rest).
Proof.
  intros Hs Hne Hf. destruct cleaned as [|c s]; [contradiction|].
  assert (Hc := stripped_head _ _ Hs).
  assert (Hl : PyStr.is_linebreak c = false).
  { destruct (PyStr.is_linebreak c) eqn:E; trivial.
    apply linebreak_isspace in E. congruence. }
  unfold format_message in Hf.
  destruct (PyStr.splitlines (c :: s)) as [|line0 more] eqn:E;
    [discriminate|].
  assert (Hline : single_line line0)
    by (apply (splitlines_from_first [] (c :: s) line0 more);
        [reflexivity|exact E]).
  assert (Hhead : exists l, line0 = c :: l).
  { unfold PyStr.splitlines in E. cbn [PyStr.splitlines_from] in E.
    rewrite Hl in E.
    destruct (splitlines_from_begun [c] s) as [l [more' E']]; [discriminate|].
    rewrite E' in E. injection E as <- _. now exists l. }
  destruct Hhead as [l ->].
  rewrite (strip_cons_nonspace c l Hc) in Hf.
  destruct (cap_subject_head c (PyStr.rstrip l) Hc) as [r Hr].
  injection Hf as <-.
  eexists _, _. split; [reflexivity|].
  split; [|split].
  - split; [rewrite Hr; simpl; lia|apply cap_subject_bound].
  - eapply single_line_prefix; [apply cap_subject_prefix|].
    rewrite <- (strip_cons_nonspace c l Hc).
    eapply single_line_infix; [apply infix_strip|exact Hline].
  - destruct (PyStr.rstrip (PyStr.join [newline] more)) as [|b rest] eqn:R.
    + now left.
    + right. exists (b :: rest). cbn [PyStr.is_empty]. split; [reflexivity|].
      split; [discriminate|].
      rewrite <- R. apply PyStrFacts.rstrip_idem.
Qed.

Lemma message_has_capped_subject_witness :
  exists subject body,
    lit "fix: a" ++ [newline; newline] ++ lit "b" = subject ++ body
    /\ 1 <= length subject <= MAX_SUBJECT_LENGTH
    /\ single_line subject
    /\ (body = []
        \/ exists rest, body = newline :: newline :: rest
                        /\ rest <> [] /\ PyStr.rstrip rest = rest).
Proof.
  apply (message_has_capped_subject two_line_text);
    [reflexivity|discriminate|reflexivity].
Defined.

(** The body is every line after the first, joined again: a body that
    follows the subject directly is set off by a blank line, and a body
    that the text already sets off by a blank line comes after two. *)
Theorem message_blank_lines (subject body : pystr) :
  PyStr.strip subject = subject -> subject <> [] ->
  single_line subject -> length subject <= MAX_SUBJECT_LENGTH ->
  PyStr.rstrip body = body -> body <> [] -> single_line body ->
  format_message (subject ++ newline :: body)
  = Some (subject ++ newline :: newline :: body)
  /\ format_message (subject ++ newline :: newline :: body)
     = Some (subject ++ newline :: newline :: newline :: body).
Proof.
  intros Hs Hne Hl Hlen Hb Hbne Hbl.
  assert (Hbody : PyStr.splitlines_from [] body = [body])
    by (rewrite splitlines_from_single_line; auto).
  unfold format_message, PyStr.splitlines.
  rewrite !splitlines_from_app_newline by exact Hl.
  assert (Hnl : PyStr.splitlines_from [] (newline :: body) = [[]; body])
    by (rewrite <- Hbody; apply (splitlines_from_app_newline [] [] body);
        reflexivity).
  rewrite Hnl, Hbody.
  change (rev [] ++ subject) with subject.
  change (PyStr.join [newline] [body]) with body.
  change (PyStr.join [newline] [[]; body]) with (newline :: body).
  rewrite Hs, (cap_subject_short _ Hlen).
  rewrite Hb, (rstrip_after_newline _ Hbne Hb).
  destruct body as [|b body]; [contradiction|].
  split; reflexivity.
Qed.

Lemma message_blank_lines_witness :
  format_message (lit "fix: a" ++ newline :: newline :: lit "b")
  = Some (lit "fix: a" ++ newline :: newline :: newline :: lit "b").
Proof.
  apply (message_blank_lines (lit "fix: a") (lit "b"));
    solve [reflexivity | discriminate | vm_compute; lia].
Defined.

(** ** The classification of errors *)

Section Substrings.
Import PyStr.

Lemma startswith_prefix p s : startswith p s = true <-> prefix p s.
Proof.
  unfold prefix. revert s. induction p as [|a p IH]; intros s; simpl.
  - split; eauto.
  - destruct s as [|b s].
    + split; [discriminate|]. intros [after H]. discriminate.
    + rewrite andb_true_iff, Ascii.eqb_eq, IH. split.
      * intros [-> [after ->]]. eauto.
      * intros [after H]. injection H as -> ->. eauto.
Qed.

Lemma contains_infix p s : contains p s = true <-> infix p s.
Proof.
  unfold infix. induction s as [|c s IH].
  - cbn [contains]. rewrite orb_false_r, startswith_prefix. split.
    + intros [after H]. exists [], after. exact H.
    + intros [before [after H]]. destruct before; [|discriminate].
      exists after. exact H.
  - cbn [contains]. rewrite orb_true_iff, startswith_prefix, IH. split.
    + intros [[after H]|[before [after H]]].
      * exists [], after. exact H.
      * exists (c :: before), after. simpl. now rewrite H.
    + intros [[|b before] [after H]].
      * left. exists after. exact H.
      * right. injection H as _ H. eauto.
Qed.

End Substrings.

(** An error text is transient exactly when one of the seven markers
    occurs in it as it is written (the match is case-sensitive); so text
    before and after a transient message keeps it transient, and the empty
    text is not transient. *)
Theorem transient_iff_marker_occurs (msg : pystr) :
  (is_transient msg = true
   <-> exists token, In token transient_tokens /\ infix token msg)
  /\ (forall before after,
        is_transient msg = true ->
        is_transient (before ++ msg ++ after) = true)
  /\ is_transient [] = false.
Proof.
  assert (H : forall m, is_transient m = true
                <-> exists token, In token transient_tokens /\ infix token m).
  { intros m. unfold is_transient. rewrite existsb_exists.
    split; intros [token [Hin Hc]]; exists token; split; trivial;
      now apply contains_infix. }
  split; [apply H|]. split; [|reflexivity].
  intros before after Ht. apply H in Ht as [token [Hin Hi]].
  apply H. exists token. split; [exact Hin|].
  eapply infix_trans; [exact Hi|]. now exists before, after.
Qed.

(** ** The shape of every run *)

Section RunShape.
Variable w : World.

Lemma import_error_is_fatal : is_transient import_error = false.
Proof. reflexivity. Qed.

Lemma run_gemini_missing_sdk prompt key a :
  genai_installed w = false ->
  run_gemini w prompt key a = ([], Raise (RuntimeError import_error)).
Proof. intros H. unfold run_gemini. now rewrite H. Qed.

Lemma retry_loop_missing_sdk prompt key m a later :
  genai_installed w = false ->
  retry_loop w prompt key m (a :: later)
  = ([], Raise (RuntimeError
                  (lit "Gemini API call failed: " ++ import_error))).
Proof.
  intros H.
  apply (retry_loop_fatal w prompt key m a later []
           (RuntimeError import_error)).
  - now apply run_gemini_missing_sdk.
  - apply import_error_is_fatal.
Qed.

(** The events of the loop are remote calls with the prompt and the key
    it was given, warnings and sleeps, and there are no more calls than
    attempts. *)
Lemma retry_loop_events prompt key m attempts t r :
  retry_loop w prompt key m attempts = (t, r) ->
  Forall (loop_event prompt key) t
  /\ length (network_calls t) <= length attempts.
Proof.
  revert t r. induction attempts as [|a later IH]; intros t r H.
  - injection H as <- _. split; [constructor|simpl; lia].
  - destruct (genai_installed w) eqn:I.
    + assert (G := run_gemini_installed w prompt key a I).
      destruct (generate_content w key MODEL_NAME prompt a) as [resp|e].
      * rewrite (retry_loop_break w prompt key m a later _ _ G) in H.
        injection H as <- _.
        split; [repeat constructor|simpl; lia].
      * destruct (is_transient (str_exn e)) eqn:T.
        -- destruct (a <? m)%Z eqn:A.
           ++ rewrite (retry_loop_again w prompt key m a later _ _ G T A) in H.
              destruct (retry_loop w prompt key m later) as [t' r'].
              destruct (IH t' r' eq_refl) as [F L].
              injection H as <- _. split.
              ** repeat constructor. exact F.
              ** simpl. lia.
           ++ rewrite (retry_loop_give_up w prompt key m a later _ _ G T A)
                in H.
              injection H as <- _.
              split; [repeat constructor|simpl; lia].
        -- rewrite (retry_loop_fatal w prompt key m a later _ _ G T) in H.
           injection H as <- _.
           split; [repeat constructor|simpl; lia].
    + rewrite (retry_loop_missing_sdk prompt key m a later I) in H.
      injection H as <- _. split; [constructor|simpl; lia].
Qed.

Lemma loop_event_quiet prompt key t :
  Forall (loop_event prompt key) t ->
  subprocess_calls t = [] /\ writes t = [] /\ printed t = []
  /\ Forall (fun c => c = (MODEL_NAME, prompt, key)) (network_calls t).
Proof.
  induction 1 as [|ev t Hev _ (Hs & Hw & Hp & Hn)];
    [repeat split; constructor|].
  unfold subprocess_calls, writes, printed, network_calls in *.
  destruct Hev; simpl; rewrite ?Hs, ?Hw, ?Hp; repeat split; trivial.
  now constructor.
Qed.

(** With three attempts, a sleep of 1 second comes between the first and
    the second call and a sleep of 2 seconds between the second and the
    third, and there is no other sleep. *)
Lemma retry_loop_calls_and_sleeps prompt key t r :
  retry_loop w prompt key 3 [1; 2; 3]%Z = (t, r) ->
  (length (network_calls t) = 0 /\ sleeps t = [])
  \/ (length (network_calls t) = 1 /\ sleeps t = [])
  \/ (length (network_calls t) = 2 /\ sleeps t = [1]%Z)
  \/ (length (network_calls t) = 3 /\ sleeps t = [1; 2]%Z).
Proof.
  intros H. destruct (genai_installed w) eqn:I.
  - assert (A1 := run_gemini_installed w prompt key 1 I).
    assert (A2 := run_gemini_installed w prompt key 2 I).
    assert (A3 := run_gemini_installed w prompt key 3 I).
    destruct (generate_content w key MODEL_NAME prompt 1) as [r1|e1].
    { rewrite (retry_loop_break w prompt key 3 1 _ _ _ A1) in H.
      injection H as <- _. right; left. split; reflexivity. }
    destruct (is_transient (str_exn e1)) eqn:T1.
    2:{ rewrite (retry_loop_fatal w prompt key 3 1 _ _ _ A1 T1) in H.
        injection H as <- _. right; left. split; reflexivity. }
    rewrite (retry_loop_again w prompt key 3 1 _ _ _ A1 T1 eq_refl) in H.
    destruct (generate_content w key MODEL_NAME prompt 2) as [r2|e2].
    { rewrite (retry_loop_break w prompt key 3 2 _ _ _ A2) in H.
      injection H as <- _. right; right; left. split; reflexivity. }
    destruct (is_transient (str_exn e2)) eqn:T2.
    2:{ rewrite (retry_loop_fatal w prompt key 3 2 _ _ _ A2 T2) in H.
        injection H as <- _. right; right; left. split; reflexivity. }
    rewrite (retry_loop_again w prompt key 3 2 _ _ _ A2 T2 eq_refl) in H.
    destruct (generate_content w key MODEL_NAME prompt 3) as [r3|e3].
    { rewrite (retry_loop_break w prompt key 3 3 _ _ _ A3) in H.
      injection H as <- _. right; right; right. split; reflexivity. }
    destruct (is_transient (str_exn e3)) eqn:T3.
    2:{ rewrite (retry_loop_fatal w prompt key 3 3 _ _ _ A3 T3) in H.
        injection H as <- _. right; right; right. split; reflexivity. }
    rewrite (retry_loop_give_up w prompt key 3 3 _ _ _ A3 T3 eq_refl) in H.
    injection H as <- _. right; right; right. split; reflexivity.
  - rewrite (retry_loop_missing_sdk prompt key 3 1 [2; 3]%Z I) in H.
    injection H as <- _. left. split; reflexivity.
Qed.

(** The same, with the order kept: the calls and the sleeps of the loop
    alternate, beginning and ending with a call. *)
Lemma retry_loop_marks prompt key t r :
  retry_loop w prompt key 3 [1; 2; 3]%Z = (t, r) ->
  calls_and_sleeps t = []
  \/ calls_and_sleeps t = [Call]
  \/ calls_and_sleeps t = [Call; Sleep 1; Call]
  \/ calls_and_sleeps t = [Call; Sleep 1; Call; Sleep 2; Call].
Proof.
  intros H. destruct (genai_installed w) eqn:I.
  - assert (A1 := run_gemini_installed w prompt key 1 I).
    assert (A2 := run_gemini_installed w prompt key 2 I).
    assert (A3 := run_gemini_installed w prompt key 3 I).
    destruct (generate_content w key MODEL_NAME prompt 1) as [r1|e1].
    { rewrite (retry_loop_break w prompt key 3 1 _ _ _ A1) in H.
      injection H as <- _. right; left. reflexivity. }
    destruct (is_transient (str_exn e1)) eqn:T1.
    2:{ rewrite (retry_loop_fatal w prompt key 3 1 _ _ _ A1 T1) in H.
        injection H as <- _. right; left. reflexivity. }
    rewrite (retry_loop_again w prompt key 3 1 _ _ _ A1 T1 eq_refl) in H.
    destruct (generate_content w key MODEL_NAME prompt 2) as [r2|e2].
    { rewrite (retry_loop_break w prompt key 3 2 _ _ _ A2) in H.
      injection H as <- _. right; right; left. reflexivity. }
    destruct (is_transient (str_exn e2)) eqn:T2.
    2:{ rewrite (retry_loop_fatal w prompt key 3 2 _ _ _ A2 T2) in H.
        injection H as <- _. right; right; left. reflexivity. }
    rewrite (retry_loop_again w prompt key 3 2 _ _ _ A2 T2 eq_refl) in H.
    destruct (generate_content w key MODEL_NAME prompt 3) as [r3|e3].
    { rewrite (retry_loop_break w prompt key 3 3 _ _ _ A3) in H.
      injection H as <- _. right; right; right. reflexivity. }
    destruct (is_transient (str_exn e3)) eqn:T3.
    2:{ rewrite (retry_loop_fatal w prompt key 3 3 _ _ _ A3 T3) in H.
        injection H as <- _. right; right; right. reflexivity. }
    rewrite (retry_loop_give_up w prompt key 3 3 _ _ _ A3 T3 eq_refl) in H.
    injection H as <- _. right; right; right. reflexivity.
  - rewrite (retry_loop_missing_sdk prompt key 3 1 [2; 3]%Z I) in H.
    injection H as <- _. left. reflexivity.
Qed.

(** What [deliver] does to the outside: nothing, or one write of the
    message it returns, with a final newline, to the given path. *)
Lemma deliver_trace path dry_run resp t r :
  deliver w path dry_run resp = (t, r) ->
  t = []
  \/ (dry_run = false
      /\ exists msg, t = [EvWrite path (msg ++ [newline])]
                     /\ r = Ret (Some msg)).
Proof.
  unfold deliver.
  assert (S : exists rs,
             sanitize_generated_value (extract_text_from_response w resp)
             = ([], rs)).
  { unfold sanitize_generated_value.
    destruct (extract_text_from_response w resp); try destruct (truthy _);
      eexists; reflexivity. }
  destruct S as [[cleaned|e] ->]; unfold bind.
  - destruct (PyStr.is_empty cleaned).
    + intros H. injection H as <- _. now left.
    + destruct (format_message cleaned) as [final|].
      * destruct dry_run.
        -- intros H. injection H as <- _. now left.
        -- unfold write_message. destruct (open_for_write w path).
           ++ intros H. injection H as <- _. now left.
           ++ intros H. injection H as <- <-. right. eauto.
      * intros H. injection H as <- _. now left.
  - intros H. injection H as <- _. now left.
Qed.

Lemma get_staged_diff_trace td diff :
  get_staged_diff w = (td, Ret diff) ->
  (td = [EvSubprocess git_diff_argv]
   /\ exists rc, git_diff_staged w = ProcCompleted rc diff)
  \/ (diff = []
      /\ exists e, td = [EvSubprocess git_diff_argv; EvStderr (diff_warning e)]).
Proof.
  unfold get_staged_diff. destruct (git_diff_staged w) as [e|rc out]; simpl;
    intros H; injection H as <- <-; [right|left]; split; trivial.
  - now exists e.
  - now exists rc.
Qed.

End RunShape.

Section RunCases.
Variable w : World.
Variable path : pystr.
Variable src : option pystr.
Variable dry_run : bool.

(** Past the credential, a run is the diff, the loop and the delivery. *)
Lemma run_hook_past_key td diff key :
  is_user_message_source src = false ->
  get_staged_diff w = (td, Ret diff) -> ~ blank diff ->
  env_GEMINI_API_KEY w = Some key -> key <> [] ->
  exists tl rl tv rv,
    retry_loop w (build_prompt diff) key 3 [1; 2; 3]%Z = (tl, rl)
    /\ run_hook w path src dry_run = (td ++ tl ++ tv, rv)
    /\ match rl with
       | Raise e => tv = [] /\ rv = Raise e
       | Ret LoopReturnNone => tv = [] /\ rv = Ret None
       | Ret (LoopResponse resp) => deliver w path dry_run resp = (tv, rv)
       end.
Proof.
  intros Hg Hd Hb Hk Hne. unfold run_hook.
  rewrite Hg, Hd. unfold bind at 1.
  rewrite (is_empty_nonblank _ Hb), (read_api_key_present w key Hk Hne).
  rewrite attempts_are_1_2_3. unfold bind, max_attempts.
  destruct (retry_loop w (build_prompt diff) key 3 [1; 2; 3]%Z)
    as [tl [[resp|]|e]].
  - destruct (deliver w path dry_run resp) as [tv rv] eqn:V.
    exists tl, (Ret (LoopResponse resp)), tv, rv. repeat split. exact V.
  - exists tl, (Ret LoopReturnNone), [], (Ret None). repeat split.
  - exists tl, (Raise e), [], (Raise e).
    repeat split. now rewrite !app_nil_r.
Qed.

(** What [main] adds to the events of [run_hook]: nothing, an error line,
    or, in a dry run, the message. *)
Lemma main_adds :
  exists tm,
    fst (main w path src dry_run) = fst (run_hook w path src dry_run) ++ tm
    /\ (tm = []
        \/ (exists line, tm = [EvStderr line])
        \/ (dry_run = true
            /\ exists msg, tm = [EvStdout msg]
                 /\ snd (run_hook w path src dry_run) = Ret (Some msg))).
Proof.
  unfold main.
  destruct (run_hook w path src dry_run) as [t [[[|c msg]|]|[m|m|cls m]]];
    cbn [fst snd].
  1, 3, 6: exists []; split; [now rewrite app_nil_r|now left].
  - destruct dry_run.
    + exists [EvStdout (c :: msg)]. split; [reflexivity|].
      right; right. eauto.
    + exists []. split; [now rewrite app_nil_r|now left].
  - eexists. split; [reflexivity|]. right; left. eauto.
  - eexists. split; [reflexivity|]. right; left. eauto.
Qed.

(** Every run is made of four parts, in this order: the diff, the loop,
    the delivery, and what [main] adds. *)
Lemma main_trace_structure :
  exists td tl tv tm,
    fst (main w path src dry_run) = td ++ tl ++ tv ++ tm
    /\ (td = [] \/ td = [EvSubprocess git_diff_argv]
        \/ exists e,
             td = [EvSubprocess git_diff_argv; EvStderr (diff_warning e)])
    /\ (tl = []
        \/ exists diff key rl rc,
             is_user_message_source src = false
             /\ git_diff_staged w = ProcCompleted rc diff
             /\ ~ blank diff
             /\ env_GEMINI_API_KEY w = Some key /\ key <> []
             /\ retry_loop w (build_prompt diff) key 3 [1; 2; 3]%Z = (tl, rl))
    /\ (tv = []
        \/ (dry_run = false
            /\ exists msg,
                 tv = [EvWrite path (msg ++ [newline])]
                 /\ snd (run_hook w path src dry_run) = Ret (Some msg)))
    /\ (tm = []
        \/ (exists line, tm = [EvStderr line])
        \/ (dry_run = true
            /\ exists msg, tm = [EvStdout msg]
                 /\ snd (run_hook w path src dry_run) = Ret (Some msg))).
Proof.
  destruct main_adds as [tm [Hm Htm]]. rewrite Hm.
  destruct (is_user_message_source src) eqn:Hg.
  { assert (E : fst (run_hook w path src dry_run) = [])
      by now rewrite (run_hook_skipped w path dry_run src Hg).
    rewrite E. exists [], [], [], tm. repeat split; auto. }
  destruct (get_staged_diff_returns w) as [td [diff Hd]].
  assert (Htd := get_staged_diff_trace w td diff Hd).
  assert (Htd' : td = [] \/ td = [EvSubprocess git_diff_argv]
                 \/ exists e, td = [EvSubprocess git_diff_argv;
                                    EvStderr (diff_warning e)]).
  { destruct Htd as [[-> _]|[_ [e ->]]]; eauto. }
  destruct (PyStr.strip diff) as [|c0 d0] eqn:Hstrip.
  { assert (E : fst (run_hook w path src dry_run) = td)
      by now rewrite (run_hook_blank w path dry_run src td diff Hg Hd Hstrip).
    rewrite E. exists td, [], [], tm. repeat split; auto. }
  assert (Hb : ~ blank diff) by (unfold blank; rewrite Hstrip; discriminate).
  destruct (env_GEMINI_API_KEY w) as [[|c key]|] eqn:Hk.
  1, 3: assert (Hmiss : credential_missing w)
          by (unfold credential_missing; rewrite Hk; auto);
        assert (E : fst (run_hook w path src dry_run) = td)
          by (now rewrite (run_hook_missing_key
                             w path dry_run src td diff Hg Hd Hb Hmiss));
        rewrite E; exists td, [], [], tm; repeat split; auto.
  assert (Hne : c :: key <> []) by discriminate.
  destruct (run_hook_past_key td diff (c :: key) Hg Hd Hb Hk Hne)
    as (tl & rl & tv & rv & Hl & Hr & Hrest).
  assert (E : fst (run_hook w path src dry_run) = td ++ tl ++ tv)
    by now rewrite Hr.
  assert (E' : snd (run_hook w path src dry_run) = rv) by now rewrite Hr.
  rewrite E. exists td, tl, tv, tm. rewrite <- !app_assoc.
  split; [reflexivity|]. split; [exact Htd'|]. split; [|split; [|exact Htm]].
  - right. destruct Htd as [[_ [rc Hgit]]|[Hnil _]].
    + exists diff, (c :: key), rl, rc. repeat split; auto.
    + subst diff. discriminate.
  - destruct rl as [[resp|]|e]; try (left; tauto).
    destruct (deliver_trace w path dry_run resp tv rv Hrest)
      as [->|[Hdry [msg [-> Hrv]]]]; [now left|].
    right. split; [exact Hdry|]. exists msg. split; [reflexivity|].
    now rewrite E'.
Qed.

End RunCases.

Section Observations.

Lemma subprocess_calls_app a b :
  subprocess_calls (a ++ b) = subprocess_calls a ++ subprocess_calls b.
Proof. apply flat_map_app. Qed.

Lemma network_calls_app a b :
  network_calls (a ++ b) = network_calls a ++ network_calls b.
Proof. apply flat_map_app. Qed.

Lemma sleeps_app a b : sleeps (a ++ b) = sleeps a ++ sleeps b.
Proof. apply flat_map_app. Qed.

Lemma writes_app a b : writes (a ++ b) = writes a ++ writes b.
Proof. apply flat_map_app. Qed.

Lemma printed_app a b : printed (a ++ b) = printed a ++ printed b.
Proof. apply flat_map_app. Qed.

Lemma calls_and_sleeps_app a b :
  calls_and_sleeps (a ++ b) = calls_and_sleeps a ++ calls_and_sleeps b.
Proof. apply flat_map_app. Qed.

End Observations.

Ltac split_observations :=
  rewrite ?subprocess_calls_app, ?network_calls_app, ?sleeps_app,
          ?writes_app, ?printed_app.

(** Whatever the world does, one run of the hook starts the diff command
    at most once, and its remote calls and sleeps, taken in the order in
    which they happen, are nothing, one call, or calls with a sleep between
    each two: call, 1 second, call, or call, 1 second, call, 2 seconds,
    call.  So there are at most three calls, a sleep never comes before the
    first call or after the last one, and nothing follows the third call.
    The file is written at most once and at most one message is printed; a
    dry run never writes, and a run that is not dry never prints. *)
Theorem run_effects_are_bounded
    (w : World) (path : pystr) (src : option pystr) (dry_run : bool) :
  let t := fst (main w path src dry_run) in
  length (subprocess_calls t) <= 1
  /\ (calls_and_sleeps t = []
      \/ calls_and_sleeps t = [Call]
      \/ calls_and_sleeps t = [Call; Sleep 1; Call]
      \/ calls_and_sleeps t = [Call; Sleep 1; Call; Sleep 2; Call])
  /\ ((length (network_calls t) = 0 /\ sleeps t = [])
      \/ (length (network_calls t) = 1 /\ sleeps t = [])
      \/ (length (network_calls t) = 2 /\ sleeps t = [1]%Z)
      \/ (length (network_calls t) = 3 /\ sleeps t = [1; 2]%Z))
  /\ length (writes t) <= 1
  /\ length (printed t) <= 1
  /\ (dry_run = true -> writes t = [])
  /\ (dry_run = false -> printed t = []).
Proof.
  cbv zeta.
  destruct (main_trace_structure w path src dry_run)
    as (td & tl & tv & tm & -> & Hd & Hl & Hv & Hm).
  assert (Qd : length (subprocess_calls td) <= 1 /\ network_calls td = []
               /\ sleeps td = [] /\ writes td = [] /\ printed td = []
               /\ calls_and_sleeps td = []).
  { destruct Hd as [->|[->|[e ->]]]; simpl; repeat split; lia. }
  assert (Ql : subprocess_calls tl = [] /\ writes tl = [] /\ printed tl = []
               /\ ((length (network_calls tl) = 0 /\ sleeps tl = [])
                   \/ (length (network_calls tl) = 1 /\ sleeps tl = [])
                   \/ (length (network_calls tl) = 2 /\ sleeps tl = [1]%Z)
                   \/ (length (network_calls tl) = 3 /\ sleeps tl = [1; 2]%Z))
               /\ (calls_and_sleeps tl = []
                   \/ calls_and_sleeps tl = [Call]
                   \/ calls_and_sleeps tl = [Call; Sleep 1; Call]
                   \/ calls_and_sleeps tl
                      = [Call; Sleep 1; Call; Sleep 2; Call])).
  { destruct Hl as [->|(diff & key & rl & rc & _ & _ & _ & _ & _ & L)].
    - repeat split; now left.
    - destruct (retry_loop_events w _ _ _ _ _ _ L) as [F _].
      destruct (loop_event_quiet _ _ _ F) as (Hs & Hw & Hp & _).
      repeat split; trivial.
      + apply (retry_loop_calls_and_sleeps w _ _ _ _ L).
      + apply (retry_loop_marks w _ _ _ _ L). }
  assert (Qv : subprocess_calls tv = [] /\ network_calls tv = []
               /\ sleeps tv = [] /\ printed tv = []
               /\ length (writes tv) <= 1
               /\ (dry_run = true -> writes tv = [])
               /\ calls_and_sleeps tv = []).
  { destruct Hv as [->|[Hdry (msg & -> & _)]]; simpl; repeat split;
      try lia; trivial. intros. congruence. }
  assert (Qm : subprocess_calls tm = [] /\ network_calls tm = []
               /\ sleeps tm = [] /\ writes tm = []
               /\ length (printed tm) <= 1
               /\ (dry_run = false -> printed tm = [])
               /\ calls_and_sleeps tm = []).
  { destruct Hm as [->|[[line ->]|[Hdry (msg & -> & _)]]]; simpl;
      repeat split; try lia; trivial. intros. congruence. }
  destruct Qd as (Ds & Dn & Dz & Dw & Dp & Dc).
  destruct Ql as (Ls & Lw & Lp & Lz & Lc).
  destruct Qv as (Vs & Vn & Vz & Vp & Vw & Vdry & Vc).
  destruct Qm as (Ms & Mn & Mz & Mw & Mp & Mdry & Mc).
  split_observations. rewrite !calls_and_sleeps_app.
  rewrite Ls, Vs, Ms, Dn, Vn, Mn, Dz, Vz, Mz, Dw, Lw, Mw, Dp, Lp, Vp,
          Dc, Vc, Mc.
  rewrite !app_nil_r. cbn [app].
  repeat split; trivial.
Qed.

(** Every remote call of a run names the fixed model, carries the
    non-empty credential of the environment, and its prompt is built from
    what the diff command printed; so a run with the source gate closed,
    with a blank diff or without credential makes no remote call. *)
Theorem remote_calls_carry_diff_and_key
    (w : World) (path : pystr) (src : option pystr) (dry_run : bool)
    (model prompt key : pystr) :
  In (model, prompt, key) (network_calls (fst (main w path src dry_run))) ->
  model = MODEL_NAME
  /\ is_user_message_source src = false
  /\ env_GEMINI_API_KEY w = Some key /\ key <> []
  /\ genai_installed w = true
  /\ exists rc diff,
       git_diff_staged w = ProcCompleted rc diff
       /\ ~ blank diff /\ prompt = build_prompt diff.
Proof.
  destruct (main_trace_structure w path src dry_run)
    as (td & tl & tv & tm & -> & Hd & Hl & Hv & Hm).
  split_observations.
  assert (Dn : network_calls td = [])
    by (destruct Hd as [->|[->|[e ->]]]; reflexivity).
  assert (Vn : network_calls tv = [])
    by (destruct Hv as [->|[_ (msg & -> & _)]]; reflexivity).
  assert (Mn : network_calls tm = [])
    by (destruct Hm as [->|[[line ->]|[_ (msg & -> & _)]]]; reflexivity).
  rewrite Dn, Vn, Mn, !app_nil_r. cbn [app].
  destruct Hl as [->|(diff & k & rl & rc & Hg & Hgit & Hb & Hk & Hne & L)];
    [intros []|].
  intros Hin.
  assert (I : genai_installed w = true).
  { destruct (genai_installed w) eqn:I; trivial.
    rewrite (retry_loop_missing_sdk w (build_prompt diff) k 3 1 [2; 3]%Z I)
      in L.
    injection L as <- _. destruct Hin. }
  destruct (retry_loop_events w _ _ _ _ _ _ L) as [F _].
  destruct (loop_event_quiet _ _ _ F) as (_ & _ & _ & Hn).
  rewrite Forall_forall in Hn. apply Hn in Hin. injection Hin as -> -> ->.
  split; [reflexivity|]. split; [exact Hg|]. split; [exact Hk|].
  split; [exact Hne|]. split; [exact I|].
  exists rc, diff. repeat split; trivial.
Qed.

Lemma remote_calls_carry_diff_and_key_witness :
  MODEL_NAME = MODEL_NAME
  /\ is_user_message_source None = false
  /\ env_GEMINI_API_KEY good_world = Some sample_key /\ sample_key <> []
  /\ genai_installed good_world = true
  /\ exists rc diff,
       git_diff_staged good_world = ProcCompleted rc diff
       /\ ~ blank diff /\ build_prompt sample_diff = build_prompt diff.
Proof.
  apply (remote_calls_carry_diff_and_key good_world sample_path None false).
  left. reflexivity.
Defined.

(** What a run writes or prints is the message [run_hook] returns: a
    write goes to the given path, happens outside a dry run only, holds that
    message and a final newline, and the exit status is then 0; a printed
    line is that message, in a dry run only. *)
Theorem output_is_the_returned_message
    (w : World) (path : pystr) (src : option pystr) (dry_run : bool) :
  (forall p content,
     In (p, content) (writes (fst (main w path src dry_run))) ->
     p = path /\ dry_run = false
     /\ exists msg,
          content = msg ++ [newline]
          /\ snd (run_hook w path src dry_run) = Ret (Some msg)
          /\ snd (main w path src dry_run) = Ret 0%Z)
  /\ (forall line,
        In line (printed (fst (main w path src dry_run))) ->
        dry_run = true
        /\ snd (run_hook w path src dry_run) = Ret (Some line)
        /\ snd (main w path src dry_run) = Ret 0%Z).
Proof.
  destruct (main_trace_structure w path src dry_run)
    as (td & tl & tv & tm & E & Hd & Hl & Hv & Hm).
  rewrite E. split_observations.
  assert (Dq : writes td = [] /\ printed td = [])
    by (destruct Hd as [->|[->|[e ->]]]; split; reflexivity).
  assert (Lq : writes tl = [] /\ printed tl = []).
  { destruct Hl as [->|(diff & key & rl & rc & _ & _ & _ & _ & _ & L)];
      [split; reflexivity|].
    destruct (retry_loop_events w _ _ _ _ _ _ L) as [F _].
    destruct (loop_event_quiet _ _ _ F) as (_ & Hw & Hp & _). now split. }
  assert (Vp : printed tv = [])
    by (destruct Hv as [->|[_ (msg & -> & _)]]; reflexivity).
  assert (Mw : writes tm = [])
    by (destruct Hm as [->|[[line ->]|[_ (msg & -> & _)]]]; reflexivity).
  destruct Dq as [Dw Dp]. destruct Lq as [Lw Lp].
  rewrite Dw, Dp, Lw, Lp, Vp, Mw, !app_nil_r. cbn [app].
  assert (Exit : forall msg,
             snd (run_hook w path src dry_run) = Ret (Some msg) ->
             snd (main w path src dry_run) = Ret 0%Z).
  { intros msg H. rewrite main_status, H. reflexivity. }
  split.
  - intros p content Hin.
    destruct Hv as [->|[Hdry (msg & -> & Hr)]]; [destruct Hin|].
    destruct Hin as [Hin|[]]. injection Hin as <- <-.
    repeat split; trivial. exists msg. repeat split; eauto.
  - intros line Hin.
    destruct Hm as [->|[[l ->]|[Hdry (msg & -> & Hr)]]];
      try solve [destruct Hin].
    destruct Hin as [<-|[]]. repeat split; eauto.
Qed.

Lemma output_is_the_returned_message_witness :
  sample_path = sample_path /\ false = false
  /\ exists msg,
       lit "feat: add hello print" ++ [newline] = msg ++ [newline]
       /\ snd (run_hook good_world sample_path None false) = Ret (Some msg)
       /\ snd (main good_world sample_path None false) = Ret 0%Z.
Proof.
  apply (output_is_the_returned_message good_world sample_path None false).
  vm_compute. left. reflexivity.
Defined.

(** [main] raises only from the last stage of the run.  If an exception
    goes through [main], it is neither a [ValueError] nor a
    [RuntimeError], the source gate was open, the diff command completed
    with a diff that is not blank, the credential was there, the retry
    loop ended with a response, and it is the delivery of this response
    (extraction, sanitizing, writing) that raised the exception.  So the
    diff command, the credential and the remote calls never make [main]
    raise, whatever they do. *)
Theorem main_raises_only_at_delivery
    (w : World) (path : pystr) (src : option pystr) (dry_run : bool)
    (e : exn) :
  snd (main w path src dry_run) = Raise e ->
  (forall m, e <> ValueError m) /\ (forall m, e <> RuntimeError m)
  /\ is_user_message_source src = false
  /\ exists rc diff key tl resp tv,
       git_diff_staged w = ProcCompleted rc diff /\ ~ blank diff
       /\ env_GEMINI_API_KEY w = Some key /\ key <> []
       /\ retry_loop w (build_prompt diff) key 3 [1; 2; 3]%Z
          = (tl, Ret (LoopResponse resp))
       /\ deliver w path dry_run resp = (tv, Raise e).
Proof.
  intros H. apply main_raise_iff in H as (H & Hv & Hr).
  split; [exact Hv|]. split; [exact Hr|].
  destruct (is_user_message_source src) eqn:Hg.
  { rewrite (run_hook_skipped w path dry_run src Hg) in H. discriminate. }
  split; [reflexivity|].
  destruct (get_staged_diff_returns w) as [td [diff Hd]].
  destruct (PyStr.strip diff) as [|c0 d0] eqn:Hstrip.
  { rewrite (run_hook_blank w path dry_run src td diff Hg Hd Hstrip) in H.
    discriminate. }
  assert (Hb : ~ blank diff) by (unfold blank; rewrite Hstrip; discriminate).
  destruct (env_GEMINI_API_KEY w) as [[|c key]|] eqn:Hk.
  1, 3: assert (Hmiss : credential_missing w)
          by (unfold credential_missing; rewrite Hk; auto);
        rewrite (run_hook_missing_key w path dry_run src td diff Hg Hd Hb Hmiss)
          in H; injection H as <-; now destruct (Hv
            (lit "GEMINI_API_KEY environment variable is not set.")).
  assert (Hne : c :: key <> []) by discriminate.
  destruct (run_hook_past_key w path src dry_run td diff (c :: key)
              Hg Hd Hb Hk Hne)
    as (tl & rl & tv & rv & Hl & Hrun & Hrest).
  rewrite Hrun in H. cbn [snd] in H. subst rv.
  destruct (get_staged_diff_trace w td diff Hd) as [[_ [rc Hgit]]|[Hnil _]];
    [|subst diff; discriminate].
  destruct rl as [[resp|]|e'].
  - exists rc, diff, (c :: key), tl, resp, tv. repeat split; trivial.
  - destruct Hrest as [_ Hrv]. discriminate.
  - destruct Hrest as [_ Hrv]. injection Hrv as <-.
    apply retry_loop_raises_runtime_error in Hl as [msg ->].
    now destruct (Hr msg).
Qed.

Lemma main_raises_only_at_delivery_witness :
  snd (main readonly_world sample_path None false) = Raise permission_denied
  /\ exists rc diff key tl resp tv,
       git_diff_staged readonly_world = ProcCompleted rc diff /\ ~ blank diff
       /\ env_GEMINI_API_KEY readonly_world = Some key /\ key <> []
       /\ retry_loop readonly_world (build_prompt diff) key 3 [1; 2; 3]%Z
          = (tl, Ret (LoopResponse resp))
       /\ deliver readonly_world sample_path false resp
          = (tv, Raise permission_denied).
Proof.
  split; [reflexivity|].
  apply (main_raises_only_at_delivery readonly_world sample_path None false
           permission_denied eq_refl).
Defined.

(** ** More scenarios *)

(** When the first remote call returns a response whose text sanitizes
    to a non-empty string, the run is the diff command, one call and the
    output: no warning, no sleep; the message is printed in a dry run and
    written with a final newline otherwise, and the exit status is 0. *)
Theorem first_attempt_delivers
    (w : World) (path : pystr) (src : option pystr) (dry_run : bool)
    (diff key : pystr) (resp : pyval) (raw : pystr) :
  reaches_generation w src diff key ->
  remote w diff key 1 = Ret resp ->
  extract_text_from_response w resp = VStr raw ->
  sanitize_generated_text raw <> [] ->
  (dry_run = false -> open_for_write w path = None) ->
  exists final,
    format_message (sanitize_generated_text raw) = Some final
    /\ run_hook w path src dry_run
       = ([EvSubprocess git_diff_argv; call diff key]
            ++ (if dry_run then [] else [EvWrite path (final ++ [newline])]),
          Ret (Some final))
    /\ main w path src dry_run
       = ([EvSubprocess git_diff_argv; call diff key]
            ++ (if dry_run then [EvStdout final]
                else [EvWrite path (final ++ [newline])]),
          Ret 0%Z).
Proof.
  intros Hr H1 Hx Hne Hopen.
  destruct (format_message_nonempty _ (sanitize_stripped raw) Hne)
    as [c [msg Hf]].
  exists (c :: msg). split; [exact Hf|].
  assert (R : run_hook w path src dry_run
              = ([EvSubprocess git_diff_argv; call diff key]
                   ++ (if dry_run then []
                       else [EvWrite path ((c :: msg) ++ [newline])]),
                 Ret (Some (c :: msg)))).
  { rewrite (run_hook_generation w path dry_run src diff key Hr).
    destruct Hr as (_ & _ & _ & _ & _ & Hi).
    rewrite (retry_loop_break w (build_prompt diff) key 3 1 [2; 3]%Z
               [call diff key] resp)
      by (now rewrite (attempt_outcome w diff key Hi), H1).
    unfold bind, emit.
    rewrite (deliver_text w path dry_run resp raw (c :: msg) Hx Hne Hf).
    destruct dry_run; [reflexivity|].
    now rewrite (Hopen eq_refl). }
  split; [exact R|].
  rewrite (main_of_message _ _ _ _ _ _ _ R), <- app_assoc.
  now destruct dry_run.
Qed.

Lemma first_attempt_delivers_witness :
  exists final,
    format_message (sanitize_generated_text (lit "feat: add hello print"))
    = Some final
    /\ run_hook good_world sample_path None false
       = ([EvSubprocess git_diff_argv; call sample_diff sample_key]
            ++ [EvWrite sample_path (final ++ [newline])],
          Ret (Some final))
    /\ main good_world sample_path None false
       = ([EvSubprocess git_diff_argv; call sample_diff sample_key]
            ++ [EvWrite sample_path (final ++ [newline])],
          Ret 0%Z).
Proof.
  apply (first_attempt_delivers good_world sample_path None false
           sample_diff sample_key
           (text_response (lit "feat: add hello print"))
           (lit "feat: add hello print"));
    solve [apply sample_reaches_generation | reflexivity | discriminate].
Defined.

(** When the SDK cannot be imported, a run that has a diff and a
    credential fails at the first attempt: nothing is sent, there is no
    retry, and the exit status is 2. *)
Theorem missing_sdk_aborts
    (w : World) (path : pystr) (src : option pystr) (dry_run : bool)
    (rc : Z) (diff key : pystr) :
  is_user_message_source src = false ->
  git_diff_staged w = ProcCompleted rc diff -> ~ blank diff ->
  env_GEMINI_API_KEY w = Some key -> key <> [] ->
  genai_installed w = false ->
  main w path src dry_run
  = ([EvSubprocess git_diff_argv;
      EvStderr (lit "ERROR: Gemini API call failed: " ++ import_error)],
     Ret 2%Z).
Proof.
  intros Hg Hgit Hb Hk Hne Hi.
  assert (Hd := get_staged_diff_completed w rc diff Hgit).
  destruct (run_hook_past_key w path src dry_run _ diff key Hg Hd Hb Hk Hne)
    as (tl & rl & tv & rv & Hl & Hr & Hrest).
  rewrite (retry_loop_missing_sdk w (build_prompt diff) key 3 1 [2; 3]%Z Hi)
    in Hl.
  injection Hl as <- <-. destruct Hrest as [-> ->].
  now rewrite (main_of_runtime_error _ _ _ _ _ _ Hr).
Qed.

Lemma missing_sdk_aborts_witness :
  main no_sdk_world sample_path None false
  = ([EvSubprocess git_diff_argv;
      EvStderr (lit "ERROR: Gemini API call failed: " ++ import_error)],
     Ret 2%Z).
Proof.
  apply (missing_sdk_aborts no_sdk_world sample_path None false
           0%Z sample_diff sample_key);
    solve [reflexivity | discriminate].
Defined.

(** A reply without usable text is a failure, not a skip: when the
    extracted value is falsy, or is a str that is blank, the run raises
    after the one call, writes and prints nothing, and exits with 2. *)
Theorem blank_reply_fails
    (w : World) (path : pystr) (src : option pystr) (dry_run : bool)
    (diff key : pystr) (resp : pyval) :
  reaches_generation w src diff key ->
  remote w diff key 1 = Ret resp ->
  (truthy (extract_text_from_response w resp) = false
   \/ exists raw, extract_text_from_response w resp = VStr raw
                  /\ PyStr.strip raw = []) ->
  main w path src dry_run
  = ([EvSubprocess git_diff_argv; call diff key; EvStderr no_text_message],
     Ret 2%Z).
Proof.
  intros Hr H1 Hblank.
  assert (S : sanitize_generated_value (extract_text_from_response w resp)
              = ret []).
  { unfold sanitize_generated_value.
    destruct Hblank as [Hf|[raw [-> Hraw]]].
    - destruct (extract_text_from_response w resp) as [|s|n|l|d|attrs];
        try (rewrite Hf; reflexivity).
      destruct s; [reflexivity|discriminate].
    - now rewrite (sanitize_blank raw Hraw). }
  assert (R : run_hook w path src dry_run
              = ([EvSubprocess git_diff_argv; call diff key],
                 Raise (RuntimeError
                   (lit "No text returned from Gemini or failed to parse response.")))).
  { rewrite (run_hook_generation w path dry_run src diff key Hr).
    destruct Hr as (_ & _ & _ & _ & _ & Hi).
    rewrite (retry_loop_break w (build_prompt diff) key 3 1 [2; 3]%Z
               [call diff key] resp)
      by (now rewrite (attempt_outcome w diff key Hi), H1).
    unfold bind, emit.
    now rewrite (deliver_empty w path dry_run resp S). }
  now rewrite (main_of_runtime_error _ _ _ _ _ _ R).
Qed.

Lemma blank_reply_fails_witness :
  main blank_reply_world sample_path None false
  = ([EvSubprocess git_diff_argv; call sample_diff sample_key;
      EvStderr no_text_message], Ret 2%Z).
Proof.
  apply (blank_reply_fails blank_reply_world sample_path None false
           sample_diff sample_key (text_response [space; newline; space]));
    [apply sample_reaches_generation|reflexivity|].
  right. exists [space; newline; space]. split; reflexivity.
Defined.

(** A retry does not turn a fatal error into a skip: when the first call
    fails with a transient error and the second with one that is not,
    the run sleeps 1 second once, makes no third call, and exits with
    2. *)
Theorem fatal_error_after_retry_aborts
    (w : World) (path : pystr) (src : option pystr) (dry_run : bool)
    (diff key : pystr) (e1 e2 : exn) :
  reaches_generation w src diff key ->
  remote w diff key 1 = Raise e1 -> is_transient (str_exn e1) = true ->
  remote w diff key 2 = Raise e2 -> is_transient (str_exn e2) = false ->
  main w path src dry_run
  = ([EvSubprocess git_diff_argv;
      call diff key; EvStderr (warn_retry 1 3 e1 1); EvSleep 1;
      call diff key;
      EvStderr (lit "ERROR: Gemini API call failed: " ++ str_exn e2)],
     Ret 2%Z).
Proof.
  intros Hr H1 T1 H2 T2.
  assert (R : run_hook w path src dry_run
              = ([EvSubprocess git_diff_argv;
                  call diff key; EvStderr (warn_retry 1 3 e1 1); EvSleep 1;
                  call diff key],
                 Raise (RuntimeError
                          (lit "Gemini API call failed: " ++ str_exn e2)))).
  { rewrite (run_hook_generation w path dry_run src diff key Hr).
    destruct Hr as (_ & _ & _ & _ & _ & Hi).
    rewrite (retry_loop_again w (build_prompt diff) key 3 1 [2; 3]%Z
               [call diff key] e1)
      by (trivial; now rewrite (attempt_outcome w diff key Hi), H1).
    rewrite (retry_loop_fatal w (build_prompt diff) key 3 2 [3]%Z
               [call diff key] e2)
      by (trivial; now rewrite (attempt_outcome w diff key Hi), H2).
    reflexivity. }
  now rewrite (main_of_runtime_error _ _ _ _ _ _ R).
Qed.

Lemma fatal_error_after_retry_aborts_witness :
  main busy_then_rejected_world sample_path None false
  = ([EvSubprocess git_diff_argv;
      call sample_diff sample_key;
      EvStderr (warn_retry 1 3 server_busy 1); EvSleep 1;
      call sample_diff sample_key;
      EvStderr (lit "ERROR: Gemini API call failed: " ++ str_exn bad_key)],
     Ret 2%Z).
Proof.
  apply (fatal_error_after_retry_aborts busy_then_rejected_world
           sample_path None false sample_diff sample_key
           server_busy bad_key);
    solve [apply sample_reaches_generation | reflexivity].
Defined.

(** ** The further properties at sample inputs *)

Lemma cap_subject_bounded_prefix_witness :
  cap_subject (lit "fix: a") = lit "fix: a"
  /\ prefix (cap_subject long_subject) long_subject.
Proof.
  split.
  - destruct (cap_subject_bounded_prefix (lit "fix: a")) as (_ & _ & H & _).
    apply H. vm_compute. lia.
  - apply (cap_subject_bounded_prefix long_subject).
Defined.

Lemma deliver_never_returns_none_witness :
  exists msg,
    Some (lit "feat: add hello print") = Some msg.
Proof.
  destruct deliver_never_returns_none as [_ H].
  apply (H good_world sample_path true
           (text_response (lit "feat: add hello print")) []).
  reflexivity.
Defined.

Lemma transient_iff_marker_occurs_witness :
  is_transient (lit "HTTP 503: try later") = true.
Proof.
  destruct (transient_iff_marker_occurs (lit "503")) as (_ & H & _).
  apply (H (lit "HTTP ") (lit ": try later")). reflexivity.
Defined.

Lemma run_effects_are_bounded_witness :
  writes (fst (main good_world sample_path None true)) = []
  /\ printed (fst (main good_world sample_path None false)) = [].
Proof.
  split.
  - apply (run_effects_are_bounded good_world sample_path None true).
    reflexivity.
  - apply (run_effects_are_bounded good_world sample_path None false).
    reflexivity.
Defined.

(** Formatting on small templates: doubled braces, the field, and the
    templates that raise. *)
Example py_format_samples :
  py_format (lit "a{{b}}{diff}c") (lit "X{y}") = Some (lit "a{b}X{y}c")
  /\ py_format (lit "{other}") (lit "X") = None
  /\ py_format (lit "{diff") (lit "X") = None
  /\ py_format (lit "a}") (lit "X") = None.
Proof. repeat split. Qed.
